(** * FunctionBuffer: a fixed-capacity, type-erased callable container

    A shallow embedding of [inc/FunctionBuffer.hpp].

    The header stores a callable inside a 40-byte array by placement new,
    dispatches through a [FunctionConcept*] handle and copies / moves the
    container by duplicating the raw bytes of the array.  The embedding keeps
    that level of detail:

    - a [FunctionBuffer] object is a record with the byte array [m_buffer] and
      the handle [m_func]; objects live in a store indexed by their address,
      so that two references to the same object alias;
    - the object representation of a [FunctionModel<T>] is its vtable pointer
      (8 bytes, little endian) followed by the member [m_functor];
    - virtual dispatch reads the vtable pointer back from the bytes under the
      handle and looks it up among the classes instantiated by the program;
    - a callable is given by its size and by what its call operator, move
      constructor and destructor do, at the address of the object, to its
      own bytes and to the memory outside the FunctionBuffers;
    - a destroyed adapter is left with the vtable pointer of its base
      class, through which nothing can be dispatched;
    - constructors and destructors that run are recorded in a trace;
    - undefined behaviour (a write past the array, a call through bytes that
      hold no vtable pointer, a dangling reference) is the result [None];
    - instantiating a member template yields code or, when a
      [static_assert] fails, a build failure.

    Definitions come first, then facts about bytes, the symbolic execution
    of each operation, an invariant of all operations, and the properties
    of the container with their instances on concrete callables. *)

From Stdlib Require Import ZArith String List Lia.
From stdpp Require Import base option list gmap strings.

Local Open Scope Z_scope.

(* ===================================================================== *)
(** ** Configuration *)

(** [constexpr size_t MAX_BUFFER_SIZE = 40;] *)
Definition MAX_BUFFER_SIZE : nat := 40.

(* ===================================================================== *)
(** ** Bytes and object representations *)

(** Size of a pointer (and of the vtable pointer of a polymorphic object). *)
Definition PTR_SIZE : nat := 8.

(** Little-endian representation of [z] on [n] bytes. *)
Fixpoint encode_le (n : nat) (z : Z) : list Z :=
  match n with
  | O => []
  | S k => (z mod 256) :: encode_le k (z / 256)
  end.

Fixpoint decode_le (bs : list Z) : Z :=
  match bs with
  | [] => 0
  | b :: bs' => b + 256 * decode_le bs'
  end.

Definition encode_ptr (p : Z) : list Z := encode_le PTR_SIZE p.

(** [n] bytes of [buf] starting at offset [off]. *)
Definition read_bytes (off n : nat) (buf : list Z) : list Z :=
  take n (drop off buf).

(** Overwrite [buf] with [bs] from offset [off]; a write that does not fit
    in [buf] is out of bounds. *)
Definition write_bytes (off : nat) (bs buf : list Z) : option (list Z) :=
  if (off + length bs <=? length buf)%nat
  then Some (take off buf ++ bs ++ drop (off + length bs) buf)
  else None.

(** Round [n] up to a multiple of [a]. *)
Definition align_up (n a : nat) : nat := (((n + a - 1) / a) * a)%nat.

(* ===================================================================== *)
(** ** Stores *)

(** The members of [FunctionBuffer<R(Args...)>].  [m_func = None] is the null
    pointer.  The constant member [buffer_address] is the address of
    [m_buffer], the first member of the object, and so the address of the
    object itself: see [buffer_address] below. *)
Record FunctionBuffer : Type := mkFunctionBuffer {
  m_buffer : list Z;
  m_func : option Z
}.

(** What ran, in order. [vt] is the address of the vtable of the
    [FunctionModel] instance concerned. *)
Inductive Event : Type :=
| EvModelCtor (vt : Z) (p : Z)            (* FunctionModel<T> constructed at p *)
| EvModelDtor (vt : Z) (p : Z)            (* ~FunctionModel<T> ran at p *)
| EvFunctorMove (vt : Z)                  (* move constructor of the callable *)
| EvFunctorDtor (vt : Z) (bs : list Z).   (* destructor of a held callable *)

Record State : Type := mkState {
  boxes : gmap Z FunctionBuffer;   (* the FunctionBuffer objects, by address *)
  objs : gmap Z (list Z);          (* every other object (the caller's callables,
                                      what they point to), by address *)
  trace : list Event
}.

(** [void * const buffer_address = reinterpret_cast<void*>(m_buffer);] *)
Definition buffer_address (this : Z) : Z := this.

(** The address of the member [m_functor] of the adapter placed in the
    FunctionBuffer at [this]: it follows the vtable pointer. *)
Definition member_address (this : Z) : Z := buffer_address this + Z.of_nat PTR_SIZE.

(** The address of the vtable of [FunctionConcept] itself, whose call
    operator is pure.  Its value is immaterial; the adapter classes of a
    program have other addresses. *)
Definition FunctionConcept_vtable : Z := 1024.

(* ===================================================================== *)
(** ** A state monad with undefined behaviour *)

Definition M (A : Type) : Type := State -> option (A * State).

Definition ret {A} (a : A) : M A := fun s => Some (a, s).

Definition bind {A B} (c : M A) (k : A -> M B) : M B :=
  fun s => match c s with
           | Some (a, s') => k a s'
           | None => None
           end.

Definition undefined {A} : M A := fun _ => None.

Definition lift {A} (o : option A) : M A :=
  fun s => match o with Some a => Some (a, s) | None => None end.

Declare Scope fb_scope.
Delimit Scope fb_scope with fb.
Notation "x <- c1 ;; c2" := (bind c1 (fun x => c2))
  (at level 100, c1 at next level, right associativity) : fb_scope.
Notation "c1 ;; c2" := (bind c1 (fun _ => c2))
  (at level 100, right associativity) : fb_scope.
Local Open Scope fb_scope.

Definition log (e : Event) : M unit :=
  fun s => Some (tt, mkState (boxes s) (objs s) (trace s ++ [e])).

Definition load_box (p : Z) : M FunctionBuffer :=
  fun s => match boxes s !! p with Some b => Some (b, s) | None => None end.

Definition store_box (p : Z) (b : FunctionBuffer) : M unit :=
  fun s => Some (tt, mkState (<[p := b]> (boxes s)) (objs s) (trace s)).

(** Storage for a new object: disjoint from every live FunctionBuffer. Its
    bytes are indeterminate (here: zero) and its handle is not yet set. *)
Definition alloc_box (p : Z) : M unit :=
  fun s => match boxes s !! p with
           | Some _ => None
           | None => Some (tt, mkState (<[p := mkFunctionBuffer (repeat 0 MAX_BUFFER_SIZE) None]> (boxes s))
                                        (objs s) (trace s))
           end.

Definition free_box (p : Z) : M unit :=
  fun s => Some (tt, mkState (delete p (boxes s)) (objs s) (trace s)).

Definition load_obj (a : Z) : M (list Z) :=
  fun s => match objs s !! a with Some bs => Some (bs, s) | None => None end.

Definition store_obj (a : Z) (bs : list Z) : M unit :=
  fun s => Some (tt, mkState (boxes s) (<[a := bs]> (objs s)) (trace s)).

Definition get_objs : M (gmap Z (list Z)) :=
  fun s => Some (objs s, s).

Definition put_objs (h : gmap Z (list Z)) : M unit :=
  fun s => Some (tt, mkState (boxes s) h (trace s)).

Definition set_m_buffer (p : Z) (buf : list Z) : M unit :=
  b <- load_box p ;; store_box p (mkFunctionBuffer buf (m_func b)).

Definition set_m_func (p : Z) (h : option Z) : M unit :=
  b <- load_box p ;; store_box p (mkFunctionBuffer (m_buffer b) h).

(** Outcome of instantiating a member template: code, or a build failure. *)
Inductive Build (A : Type) : Type :=
| Built (code : A)
| BuildFailure (msg : string).
Arguments Built {A} code.
Arguments BuildFailure {A} msg.

(* ===================================================================== *)
(** ** The signature [R(Args...)], callables and the class template *)

Section Signature.

(** Result type, argument pack, and the exceptions of user code. *)
Context {R Args E : Type}.

(** What a call can raise: [std::runtime_error] or anything else. *)
Inductive Exn : Type :=
| runtime_error (what : string)
| user_exception (e : E).

Inductive Outcome : Type :=
| Returned (r : R)
| Raised (x : Exn).

(** A callable class [F], seen through what the header does with it: its
    size, its call operator, its move constructor and its destructor.
    Each is given the address of the object it runs on ([this]), the
    bytes of the object and the memory outside the FunctionBuffers, so a
    callable may depend on where it lives.  (The header never runs [F]'s
    copy constructor.)  Layout assumes [alignof(F) <= 8]; a callable does
    not itself operate on FunctionBuffers. *)
Record Functor : Type := mkFunctor {
  f_sizeof : nat;
  (* operator(), at [this]: result, the object's bytes and the memory
     after the call *)
  f_call : Z -> list Z -> Args -> gmap Z (list Z)
           -> Outcome * list Z * gmap Z (list Z);
  (* F(F&&), constructing at the first address from the object at the
     second: the bytes of the new object, of the moved-from source, and
     the memory afterwards *)
  f_move : Z -> Z -> list Z -> gmap Z (list Z)
           -> list Z * list Z * gmap Z (list Z);
  (* ~F(), at [this]: the bytes left behind and the memory afterwards *)
  f_dtor : Z -> list Z -> gmap Z (list Z) -> list Z * gmap Z (list Z);
  (* addresses of the vtables of FunctionModel<F> and FunctionModel<F&> *)
  f_vtable : Z;
  f_vtable_ref : Z
}.

(** The template argument [T] deduced for a forwarding reference [T&&]:
    [F] when the argument is an rvalue, [F&] when it is an lvalue. *)
Inductive TArg : Type :=
| T_value (F : Functor)
| T_lref (F : Functor).

Definition functor_of (T : TArg) : Functor :=
  match T with T_value F => F | T_lref F => F end.

Definition vtable_of (T : TArg) : Z :=
  match T with
  | T_value F => f_vtable F
  | T_lref F => f_vtable_ref F
  end.

(** [sizeof(T)] for the member [F m_functor] of [FunctionModel<F>], with
    [F := T]: a reference member takes a pointer. *)
Definition sizeof_member (T : TArg) : nat :=
  match T with
  | T_value F => f_sizeof F
  | T_lref _ => PTR_SIZE
  end.

(** [sizeof(FunctionModel<T>)]: vtable pointer, member, tail padding,
    for a member whose alignment is at most that of a pointer (the member
    then starts right after the vtable pointer).  Classes declared with a
    stricter alignment are outside the embedding. *)
Definition sizeof_FunctionModel (T : TArg) : nat :=
  (PTR_SIZE + align_up (sizeof_member T) PTR_SIZE)%nat.

(** The classes the program instantiates [FunctionModel] with. *)
Variable program : list Functor.

Fixpoint find_vtable (fs : list Functor) (vt : Z) : option TArg :=
  match fs with
  | [] => None
  | F :: fs' =>
      if vt =? f_vtable F then Some (T_value F)
      else if vt =? f_vtable_ref F then Some (T_lref F)
      else find_vtable fs' vt
  end.

(** The dynamic type of the object under a [FunctionConcept*]. *)
Definition dynamic_type (buf : list Z) : option TArg :=
  find_vtable program (decode_le (read_bytes 0 PTR_SIZE buf)).

(* ------------------------------------------------------------------- *)
(** *** FunctionModel *)

(** [FunctionModel(G&& func) : m_functor{std::forward<G>(func)}]:
    the representation of the member [m_functor], constructed at the
    address [self].  [func] is the address of the caller's object. *)
Definition FunctionModel_ctor (T : TArg) (self func : Z) : M (list Z) :=
  match T with
  | T_value F =>
      bs <- load_obj func ;;
      h <- get_objs ;;
      let r := f_move F self func bs h in
      put_objs (snd r) ;;
      store_obj func (snd (fst r)) ;;
      log (EvFunctorMove (f_vtable F)) ;;
      ret (fst (fst r))
  | T_lref F =>
      ret (encode_ptr func)
  end.

(** [new(buffer_address) FunctionModel<T>(std::forward<T>(func))] on the
    FunctionBuffer at [this].  An object larger than the array would be
    written past its end: undefined. *)
Definition placement_new (this : Z) (T : TArg) (func : Z) : M Z :=
  if (sizeof_FunctionModel T <=? MAX_BUFFER_SIZE)%nat then
    member <- FunctionModel_ctor T (member_address this) func ;;
    b <- load_box this ;;
    buf <- lift (write_bytes 0 (encode_ptr (vtable_of T) ++ member) (m_buffer b)) ;;
    set_m_buffer this buf ;;
    log (EvModelCtor (vtable_of T) (buffer_address this)) ;;
    ret (buffer_address this)
  else undefined.

(** [R operator()(Args && ...args) override { return m_functor(...); }],
    reached through the vtable of the object at [q]. *)
Definition FunctionConcept_call (q : Z) (args : Args) : M Outcome :=
  b <- load_box q ;;
  T <- lift (dynamic_type (m_buffer b)) ;;
  match T with
  | T_value F =>
      h <- get_objs ;;
      let r := f_call F (member_address q)
                 (read_bytes PTR_SIZE (f_sizeof F) (m_buffer b)) args h in
      put_objs (snd r) ;;
      buf <- lift (write_bytes PTR_SIZE (snd (fst r)) (m_buffer b)) ;;
      set_m_buffer q buf ;;
      ret (fst (fst r))
  | T_lref F =>
      let a := decode_le (read_bytes PTR_SIZE PTR_SIZE (m_buffer b)) in
      bs <- load_obj a ;;
      h <- get_objs ;;
      let r := f_call F a bs args h in
      put_objs (snd r) ;;
      store_obj a (snd (fst r)) ;;
      ret (fst (fst r))
  end.

(** [~FunctionModel<T>()]: destroys the member [m_functor]; a reference
    member has no destructor. *)
Definition FunctionModel_dtor (T : TArg) (q : Z) : M unit :=
  b <- load_box q ;;
  match T with
  | T_value F =>
      let bs := read_bytes PTR_SIZE (f_sizeof F) (m_buffer b) in
      log (EvFunctorDtor (f_vtable F) bs) ;;
      h <- get_objs ;;
      let r := f_dtor F (member_address q) bs h in
      put_objs (snd r) ;;
      buf <- lift (write_bytes PTR_SIZE (fst r) (m_buffer b)) ;;
      set_m_buffer q buf
  | T_lref F => ret tt
  end.

(** [m_func->~FunctionConcept()]: the virtual destructor runs
    [~FunctionModel<T>] and then [~FunctionConcept() {}], after which the
    object at [q] is no adapter any more: it is left with the vtable
    pointer of [FunctionConcept]. *)
Definition FunctionConcept_dtor (q : Z) : M unit :=
  b <- load_box q ;;
  T <- lift (dynamic_type (m_buffer b)) ;;
  log (EvModelDtor (vtable_of T) q) ;;
  FunctionModel_dtor T q ;;
  b' <- load_box q ;;
  buf <- lift (write_bytes 0 (encode_ptr FunctionConcept_vtable) (m_buffer b')) ;;
  set_m_buffer q buf.

(* ------------------------------------------------------------------- *)
(** *** FunctionBuffer *)

(** [if (m_func != nullptr) { m_func->~FunctionConcept(); }] *)
Definition destroy_held (this : Z) : M unit :=
  b <- load_box this ;;
  match m_func b with
  | Some q => FunctionConcept_dtor q
  | None => ret tt
  end.

(** [template<typename T> FunctionBuffer(T && func)], constructing the
    object at [this]; the [static_assert] is part of the instantiation. *)
Definition FunctionBuffer_ctor (T : TArg) : Build (Z -> Z -> M unit) :=
  if (sizeof_FunctionModel T <=? MAX_BUFFER_SIZE)%nat then
    Built (fun this func =>
      alloc_box this ;;
      q <- placement_new this T func ;;
      set_m_func this (Some q))
  else BuildFailure "The object won't fit in this buffer!".

(** [template<typename T> FunctionBuffer& operator=(T && func)] *)
Definition FunctionBuffer_assign (T : TArg) : Build (Z -> Z -> M unit) :=
  Built (fun this func =>
    destroy_held this ;;
    q <- placement_new this T func ;;
    set_m_func this (Some q)).

(** [R operator()(Args && ...args)] *)
Definition FunctionBuffer_call (this : Z) (args : Args) : M Outcome :=
  b <- load_box this ;;
  match m_func b with
  | None => ret (Raised (runtime_error "The function buffer is empty!"))
  | Some q => FunctionConcept_call q args
  end.

(** [~FunctionBuffer()]; the object is gone afterwards. *)
Definition FunctionBuffer_dtor (this : Z) : M unit :=
  destroy_held this ;;
  free_box this.

(** [FunctionBuffer(const FunctionBuffer& other) : m_buffer{other.m_buffer}].
    The mem-initializer list-initializes the array [char m_buffer[40]]
    with one element, the array [other.m_buffer]; that is, it initializes
    the first [char] from a [const char*], which is no conversion.  The
    constructor is ill-formed: a program that uses it does not build, and
    there is no code to run. *)
Definition FunctionBuffer_copy_ctor : Build (Z -> Z -> M unit) :=
  BuildFailure "m_buffer{other.m_buffer}: cannot initialize a char from a const char array".

(** [FunctionBuffer& operator=(const FunctionBuffer& other)], the operator
    selected for a [const] source.  [std::copy] over [char] moves the
    bytes as [memmove] does; with [this == &other] the array is copied
    onto itself and keeps its bytes. *)
Definition FunctionBuffer_copy_assign (this other : Z) : M unit :=
  destroy_held this ;;
  o <- load_box other ;;
  set_m_buffer this (m_buffer o) ;;
  set_m_func this (Some (buffer_address this)).

(** [FunctionBuffer(FunctionBuffer&& other)] *)
Definition FunctionBuffer_move_ctor (this other : Z) : M unit :=
  alloc_box this ;;
  o <- load_box other ;;
  set_m_buffer this (m_buffer o) ;;
  set_m_func this (Some (buffer_address this)) ;;
  set_m_func other None.

(** [FunctionBuffer& operator=(FunctionBuffer&& other)]; [std::copy] as
    for copy assignment. *)
Definition FunctionBuffer_move_assign (this other : Z) : M unit :=
  destroy_held this ;;
  o <- load_box other ;;
  set_m_buffer this (m_buffer o) ;;
  set_m_func this (Some (buffer_address this)) ;;
  set_m_func other None.

(** [operator bool() const] *)
Definition FunctionBuffer_bool (this : Z) : M bool :=
  b <- load_box this ;;
  ret (match m_func b with Some _ => true | None => false end).

(** Running instantiated code; a build failure runs nothing. *)
Definition run (c : Build (Z -> Z -> M unit)) (this func : Z) : M unit :=
  match c with
  | Built code => code this func
  | BuildFailure _ => undefined
  end.

(** Calling the caller's own object [f] directly: [f(args)]. *)
Definition direct_call (F : Functor) (a : Z) (args : Args) : M Outcome :=
  bs <- load_obj a ;;
  h <- get_objs ;;
  let r := f_call F a bs args h in
  put_objs (snd r) ;;
  store_obj a (snd (fst r)) ;;
  ret (fst (fst r)).

(* ------------------------------------------------------------------- *)
(** *** Observations used to state the properties *)

(** [FunctionModel<T>] is one of the program's classes: its vtable has a
    64-bit address, and that address leads back to [T]. *)
Definition registered (T : TArg) : Prop :=
  0 <= vtable_of T < 2 ^ 64 /\ find_vtable program (vtable_of T) = Some T.

(** A callable class whose operations give objects of the class: from the
    [sizeof(F)] bytes of an object, a call, the move constructor and the
    destructor leave [sizeof(F)] bytes. *)
Record functor_sized (F : Functor) : Prop := mk_functor_sized {
  sz_call_length : forall a bs args h,
    length bs = f_sizeof F ->
    length (snd (fst (f_call F a bs args h))) = f_sizeof F;
  sz_move_length : forall dst src bs h,
    length bs = f_sizeof F ->
    length (fst (fst (f_move F dst src bs h))) = f_sizeof F;
  sz_dtor_length : forall a bs h,
    length bs = f_sizeof F ->
    length (fst (f_dtor F a bs h)) = f_sizeof F
}.

(** The move constructor of the callable, run to construct at [dst] from
    the object with bytes [bs] at [src] in the memory [h], gives an object
    that answers [args] there as the source would have answered where it
    was.  This is a property of the caller's class at the one call looked
    at; an adapter that holds a reference runs no move constructor. *)
Definition move_keeps_answer (T : TArg) (dst src : Z) (bs : list Z)
           (args : Args) (h : gmap Z (list Z)) : Prop :=
  match T with
  | T_value F =>
      let r := f_move F dst src bs h in
      fst (fst (f_call F dst (fst (fst r)) args (<[src := snd (fst r)]> (snd r))))
      = fst (fst (f_call F src bs args h))
  | T_lref _ => True
  end.

(** A trivially copyable class: moving is a copy of the bytes, and the
    destructor does nothing. *)
Record trivially_copyable (F : Functor) : Prop := mk_trivially_copyable {
  triv_move : forall dst src bs h, f_move F dst src bs h = (bs, bs, h);
  triv_dtor : forall a bs h, f_dtor F a bs h = (bs, h)
}.



(** The callable behind the pointer [q], its address and its current
    bytes: the member of a [FunctionModel<F>] in a buffer, or the object a
    [FunctionModel<F&>] refers to. *)
Definition wrapped (s : State) (q : Z) : option (Functor * Z * list Z) :=
  match boxes s !! q with
  | None => None
  | Some b =>
      match dynamic_type (m_buffer b) with
      | Some (T_value F) =>
          if (PTR_SIZE + f_sizeof F <=? length (m_buffer b))%nat
          then Some (F, member_address q,
                     read_bytes PTR_SIZE (f_sizeof F) (m_buffer b))
          else None
      | Some (T_lref F) =>
          let a := decode_le (read_bytes PTR_SIZE PTR_SIZE (m_buffer b)) in
          match objs s !! a with
          | Some bs => Some (F, a, bs)
          | None => None
          end
      | None => None
      end
  end.

(** The FunctionBuffer [b] is occupied by a [FunctionModel<T>]: its handle
    points at its own array (the object lives at [this]), and the array
    holds the representation of an object of that class. *)
Definition occupied_by (this : Z) (b : FunctionBuffer) (T : TArg) : Prop :=
  m_func b = Some (buffer_address this) /\
  length (m_buffer b) = MAX_BUFFER_SIZE /\
  dynamic_type (m_buffer b) = Some T /\
  (sizeof_FunctionModel T <= MAX_BUFFER_SIZE)%nat.

(** The public operations, and runs of them. *)
Inductive Op : Type :=
| OpConstruct (T : TArg) (this func : Z)
| OpAssign (T : TArg) (this func : Z)
| OpCall (this : Z) (args : Args)
| OpDestroy (this : Z)
| OpCopyCtor (this other : Z)
| OpCopyAssign (this other : Z)
| OpMoveCtor (this other : Z)
| OpMoveAssign (this other : Z).

Definition exec (o : Op) : M unit :=
  match o with
  | OpConstruct T this func => run (FunctionBuffer_ctor T) this func
  | OpAssign T this func => run (FunctionBuffer_assign T) this func
  | OpCall this args => FunctionBuffer_call this args ;; ret tt
  | OpDestroy this => FunctionBuffer_dtor this
  | OpCopyCtor this other => run FunctionBuffer_copy_ctor this other
  | OpCopyAssign this other => FunctionBuffer_copy_assign this other
  | OpMoveCtor this other => FunctionBuffer_move_ctor this other
  | OpMoveAssign this other => FunctionBuffer_move_assign this other
  end.

Fixpoint exec_all (os : list Op) : M unit :=
  match os with
  | [] => ret tt
  | o :: os' => exec o ;; exec_all os'
  end.

(** What constructing a [FunctionModel<T>] in place at [this] records. *)
Definition placement_events (T : TArg) (this : Z) : list Event :=
  match T with
  | T_value F => [EvFunctorMove (f_vtable F); EvModelCtor (f_vtable F) this]
  | T_lref F => [EvModelCtor (f_vtable_ref F) this]
  end.

End Signature.

Arguments Exn : clear implicits.
Arguments Outcome : clear implicits.
Arguments Functor : clear implicits.
Arguments TArg : clear implicits.
Arguments Op : clear implicits.

(** Every handle is null or the address of the array of its own object. *)
Definition handles_own (s : State) : Prop :=
  forall p b, boxes s !! p = Some b ->
    m_func b = None \/ m_func b = Some (buffer_address p).

(** A computation keeps [handles_own] and returns a value satisfying [post]. *)
Definition keeps {A} (c : M A) (post : A -> Prop) : Prop :=
  forall s a s', handles_own s -> c s = Some (a, s') -> handles_own s' /\ post a.

Create HintDb keeps.

(* ===================================================================== *)
(** ** Concrete callables and states, signature [int(int)] *)

Module Examples.

(** The observable parts of a run. *)
Definition result_of {A} (c : M A) (s : State) : option A := fst <$> c s.
Definition trace_of {A} (c : M A) (s : State) : option (list Event) :=
  (fun r => trace (snd r)) <$> c s.

(** The value of a 32-bit [int] held in [z] modulo 2^32, and of one laid
    out in bytes. *)
Definition int32 (z : Z) : Z := (z + 2 ^ 31) mod 2 ^ 32 - 2 ^ 31.
Definition decode_int (bs : list Z) : Z := int32 (decode_le bs).

(** [[](int x){ return x*2; }]: a stateless lambda, one byte. *)
Definition doubler : Functor Z Z unit :=
  mkFunctor 1%nat
    (fun _ bs x h => (Returned (int32 (2 * x)), bs, h))
    (fun _ _ bs h => (bs, bs, h))
    (fun _ bs h => (bs, h))
    4096 4112.

(** A lambda capturing three [int]s, [return a + b + c + x;]. *)
Definition adder : Functor Z Z unit :=
  mkFunctor 12%nat
    (fun _ bs x h =>
       (Returned (int32 (decode_int (read_bytes 0 4 bs) + decode_int (read_bytes 4 4 bs)
                         + decode_int (read_bytes 8 4 bs) + x)), bs, h))
    (fun _ _ bs h => (bs, bs, h))
    (fun _ bs h => (bs, h))
    4128 4144.

(** A function object with an [int] member [n]: [return n++ + x;]. *)
Definition counter : Functor Z Z unit :=
  mkFunctor 4%nat
    (fun _ bs x h =>
       (Returned (int32 (decode_int bs + x)),
        encode_le (length bs) (decode_int bs + 1), h))
    (fun _ _ bs h => (bs, bs, h))
    (fun _ bs h => (bs, h))
    4160 4176.

(** A callable that throws. *)
Definition thrower : Functor Z Z unit :=
  mkFunctor 1%nat
    (fun _ bs x h => (Raised (user_exception tt), bs, h))
    (fun _ _ bs h => (bs, bs, h))
    (fun _ bs h => (bs, h))
    4192 4208.

(** A function object that knows where it lives:
    [struct Pinned { Pinned* self; int v;
                     Pinned(int v) : self(this), v(v) {}
                     Pinned(Pinned&& o) : self(this), v(o.v) {}
                     int operator()(int x) { return self == this ? v + x : -1; } };]
    Its move constructor sets [self]; a copy of its bytes does not. *)
Definition pinned : Functor Z Z unit :=
  mkFunctor 16%nat
    (fun this bs x h =>
       (Returned (if decode_le (read_bytes 0 8 bs) =? this
                  then int32 (decode_int (read_bytes 8 4 bs) + x)
                  else -1), bs, h))
    (fun dst _ bs h => (encode_ptr dst ++ drop 8 bs, bs, h))
    (fun _ bs h => (bs, h))
    4256 4272.

(** A lambda capturing 33 bytes: its adapter takes 48 bytes. *)
Definition big : Functor Z Z unit :=
  mkFunctor 33%nat
    (fun _ bs x h => (Returned x, bs, h))
    (fun _ _ bs h => (bs, bs, h))
    (fun _ bs h => (bs, h))
    4224 4240.

Definition program : list (Functor Z Z unit) :=
  [doubler; adder; counter; thrower; big; pinned].

(** The caller's objects: a doubler at 100, a counter with [n = 5] at 200,
    an adder capturing 1, 2 and 7 at 300, a thrower at 400, a big lambda
    at 500, a [Pinned] with [v = 42] at 600.  No FunctionBuffer yet. *)
Definition s0 : State :=
  mkState ∅
    (<[100 := [0]]>
     (<[200 := encode_le 4 5]>
      (<[300 := encode_le 4 1 ++ encode_le 4 2 ++ encode_le 4 7]>
       (<[400 := [0]]>
        (<[500 := repeat 0 33]>
         (<[600 := encode_ptr 600 ++ encode_le 4 42 ++ [0; 0; 0; 0]]> ∅))))))
    [].

(** [FunctionBuffer<int(int)> b1(std::move(c));] with the counter, at 1000. *)
Definition construct_b1 : M unit :=
  run (FunctionBuffer_ctor (T_value counter)) 1000 200.

(** [b1] constructed from the counter, then emptied by
    [FunctionBuffer<int(int)> b2(std::move(b1));] at 2000. *)
Definition moved_from_b1 : M unit :=
  construct_b1 ;; FunctionBuffer_move_ctor 2000 1000.

(** The state a script leaves behind. *)
Definition state_after (c : M unit) (s : State) : State :=
  match c s with
  | Some (_, s') => s'
  | None => s
  end.

(** [b1] holds the counter. *)
Definition s_b1 : State := state_after construct_b1 s0.

(** [b1] is moved-from, [b2] at 2000 holds the counter. *)
Definition s_moved : State := state_after moved_from_b1 s0.

(** A FunctionBuffer at 1000 holding the thrower. *)
Definition s_thrower : State :=
  state_after (run (FunctionBuffer_ctor (T_value thrower)) 1000 400) s0.

(** A FunctionBuffer at 1000 holding the doubler. *)
Definition s_doubler : State :=
  state_after (run (FunctionBuffer_ctor (T_value doubler)) 1000 100) s0.

(** The doubler at 1000 and the counter at 3000. *)
Definition s_two : State :=
  state_after (run (FunctionBuffer_ctor (T_value counter)) 3000 200) s_doubler.

(** A FunctionBuffer at 1000 made from the caller's counter as an lvalue. *)
Definition s_ref : State :=
  state_after (run (FunctionBuffer_ctor (T_lref counter)) 1000 200) s0.

(** A FunctionBuffer at 1000 made from the caller's counter as an lvalue,
    and one at 3000 holding the thrower. *)
Definition s_ref_two : State :=
  state_after (run (FunctionBuffer_ctor (T_value thrower)) 3000 400) s_ref.


(** Construct [b1] from the counter, move it into [b2], construct [b3]
    from the doubler, copy-assign the moved-from [b1] to it, invoke [b3],
    assign the adder to [b1], tear [b2] down. *)
Definition script : list (Op Z Z unit) :=
  [OpConstruct (T_value counter) 1000 200;
   OpMoveCtor 2000 1000;
   OpConstruct (T_value doubler) 3000 100;
   OpCopyAssign 3000 1000;
   OpCall 3000 7;
   OpAssign (T_value adder) 1000 300;
   OpDestroy 2000].

End Examples.

(* ===================================================================== *)
(** ** Tactics for running the operations symbolically *)

Ltac munfold :=
  unfold FunctionBuffer_call, FunctionBuffer_dtor, FunctionBuffer_bool,
    FunctionBuffer_copy_assign,
    FunctionBuffer_move_ctor, FunctionBuffer_move_assign,
    destroy_held, direct_call, set_m_buffer, set_m_func, bind, ret, lift, log,
    load_box, store_box, alloc_box, free_box, load_obj, store_obj, get_objs,
    put_objs, undefined, buffer_address.

Ltac mred := cbn [boxes objs trace m_buffer m_func fst snd].

(** Rewrite with a known lookup, then reduce the match on it. *)
Ltac mstep H := mred; rewrite H; mred.


(* ===================================================================== *)
(** ** Facts about bytes *)

Lemma length_encode_le (n : nat) (z : Z) : length (encode_le n z) = n.
Proof. revert z; induction n as [|n IH]; intros z; simpl; [reflexivity | by rewrite IH]. Qed.

Lemma decode_encode_le (n : nat) (z : Z) :
  0 <= z < 256 ^ Z.of_nat n -> decode_le (encode_le n z) = z.
Proof.
  revert z; induction n as [|n IH]; intros z Hz.
  - simpl in *. lia.
  - cbn [encode_le decode_le]. rewrite IH.
    + pose proof (Z.div_mod z 256). lia.
    + rewrite Nat2Z.inj_succ, Z.pow_succ_r in Hz by lia.
      split; [apply Z.div_pos; lia | apply Z.div_lt_upper_bound; lia].
Qed.

Lemma length_encode_ptr (p : Z) : length (encode_ptr p) = PTR_SIZE.
Proof. apply length_encode_le. Qed.

Lemma decode_encode_ptr (p : Z) : 0 <= p < 2 ^ 64 -> decode_le (encode_ptr p) = p.
Proof. intros Hp. apply decode_encode_le. exact Hp. Qed.

Lemma align_up_8_bounds (n : nat) : (n <= align_up n 8 < n + 8)%nat.
Proof.
  unfold align_up.
  pose proof (Nat.div_mod (n + 8 - 1) 8 ltac:(lia)) as Hd.
  pose proof (Nat.mod_upper_bound (n + 8 - 1) 8 ltac:(lia)) as Hm.
  lia.
Qed.

Lemma align_up_8_le_32 (n : nat) : (align_up n 8 <= 32 <-> n <= 32)%nat.
Proof.
  unfold align_up.
  pose proof (Nat.div_mod (n + 8 - 1) 8 ltac:(lia)) as Hd.
  pose proof (Nat.mod_upper_bound (n + 8 - 1) 8 ltac:(lia)) as Hm.
  lia.
Qed.

Lemma write_bytes_fits (off : nat) (bs buf : list Z) :
  (off + length bs <= length buf)%nat ->
  write_bytes off bs buf = Some (take off buf ++ bs ++ drop (off + length bs) buf).
Proof.
  intros H. unfold write_bytes.
  destruct (Nat.leb_spec (off + length bs) (length buf)); [reflexivity | lia].
Qed.

Lemma write_bytes_length (off : nat) (bs buf buf' : list Z) :
  write_bytes off bs buf = Some buf' -> length buf' = length buf.
Proof.
  unfold write_bytes.
  destruct (Nat.leb_spec (off + length bs) (length buf)) as [H|H]; [|discriminate].
  intros [= <-]. rewrite !length_app, length_take, length_drop. lia.
Qed.

(** Reading back what was written. *)
Lemma read_write_same (off : nat) (bs buf buf' : list Z) :
  write_bytes off bs buf = Some buf' ->
  read_bytes off (length bs) buf' = bs.
Proof.
  unfold write_bytes.
  destruct (Nat.leb_spec (off + length bs) (length buf)) as [H|H]; [|discriminate].
  intros [= <-]. unfold read_bytes.
  rewrite drop_app_length'; [| rewrite length_take; lia].
  by rewrite take_app_length.
Qed.

(** Bytes in front of the written range are untouched. *)
Lemma read_write_before (off : nat) (bs buf buf' : list Z) (o n : nat) :
  write_bytes off bs buf = Some buf' ->
  (o + n <= off)%nat ->
  read_bytes o n buf' = read_bytes o n buf.
Proof.
  unfold write_bytes.
  destruct (Nat.leb_spec (off + length bs) (length buf)) as [H|H]; [|discriminate].
  intros [= <-] Hon. unfold read_bytes.
  rewrite drop_app_le by (rewrite length_take; lia).
  rewrite take_app_le by (rewrite length_drop, length_take; lia).
  rewrite <- (take_drop off buf) at 2.
  rewrite drop_app_le by (rewrite length_take; lia).
  rewrite take_app_le by (rewrite length_drop, length_take; lia).
  reflexivity.
Qed.

(** Writing back the bytes that were read changes nothing. *)
Lemma write_bytes_read_back (off n : nat) (buf : list Z) :
  (off + n <= length buf)%nat ->
  write_bytes off (read_bytes off n buf) buf = Some buf.
Proof.
  intros H.
  assert (Hl : length (read_bytes off n buf) = n).
  { unfold read_bytes. rewrite length_take, length_drop. lia. }
  rewrite write_bytes_fits by lia. f_equal. rewrite Hl. unfold read_bytes.
  rewrite <- drop_drop, take_drop. apply take_drop.
Qed.

(* ===================================================================== *)
(** ** Symbolic execution of the operations *)

Section Execution.

Context {R Args E : Type}.
Variable program : list (Functor R Args E).

Lemma dynamic_type_placed (T : TArg R Args E) (rest : list Z) :
  registered program T ->
  dynamic_type program (encode_ptr (vtable_of T) ++ rest) = Some T.
Proof.
  intros [Hr Hf]. unfold dynamic_type, read_bytes.
  rewrite drop_0, (take_app_length' _ _ PTR_SIZE (eq_sym (length_encode_ptr _))).
  by rewrite decode_encode_ptr.
Qed.

(* ------------------------------------------------------------------- *)
(** *** Calls through the handle *)

Lemma FunctionConcept_call_value (s : State) (q : Z) (b : FunctionBuffer)
      (F : Functor R Args E) (args : Args) :
  boxes s !! q = Some b ->
  dynamic_type program (m_buffer b) = Some (T_value F) ->
  (PTR_SIZE + f_sizeof F <= length (m_buffer b))%nat ->
  functor_sized F ->
  let r := f_call F (member_address q)
             (read_bytes PTR_SIZE (f_sizeof F) (m_buffer b)) args (objs s) in
  exists buf,
    write_bytes PTR_SIZE (snd (fst r)) (m_buffer b) = Some buf /\
    FunctionConcept_call program q args s =
      Some (fst (fst r),
            mkState (<[q := mkFunctionBuffer buf (m_func b)]> (boxes s))
                    (snd r) (trace s)).
Proof.
  intros Hb Hd Hlen Hsz r.
  assert (Hw : write_bytes PTR_SIZE (snd (fst r)) (m_buffer b) =
               Some (take PTR_SIZE (m_buffer b) ++ snd (fst r) ++
                     drop (PTR_SIZE + length (snd (fst r))) (m_buffer b))).
  { apply write_bytes_fits. unfold r. rewrite (sz_call_length F Hsz); [lia|].
    unfold read_bytes. rewrite length_take, length_drop. lia. }
  eexists. split; [exact Hw|].
  unfold FunctionConcept_call. munfold. mstep Hb. rewrite Hd. mred.
  fold r. rewrite Hw. mstep Hb. reflexivity.
Qed.

Lemma FunctionConcept_call_lref (s : State) (q : Z) (b : FunctionBuffer)
      (F : Functor R Args E) (bs : list Z) (args : Args) :
  boxes s !! q = Some b ->
  dynamic_type program (m_buffer b) = Some (T_lref F) ->
  objs s !! decode_le (read_bytes PTR_SIZE PTR_SIZE (m_buffer b)) = Some bs ->
  let a := decode_le (read_bytes PTR_SIZE PTR_SIZE (m_buffer b)) in
  let r := f_call F a bs args (objs s) in
  FunctionConcept_call program q args s =
    Some (fst (fst r),
          mkState (boxes s) (<[a := snd (fst r)]> (snd r)) (trace s)).
Proof.
  intros Hb Hd Ho a r. unfold FunctionConcept_call. munfold. mstep Hb. rewrite Hd. mred.
  rewrite Ho. reflexivity.
Qed.

(** A call through a handle returns what the wrapped callable returns and
    runs no constructor or destructor. *)
Lemma FunctionConcept_call_wrapped (s : State) (q a : Z) (F : Functor R Args E)
      (bs : list Z) (args : Args) :
  wrapped program s q = Some (F, a, bs) ->
  functor_sized F ->
  exists s', FunctionConcept_call program q args s
             = Some (fst (fst (f_call F a bs args (objs s))), s')
             /\ trace s' = trace s.
Proof.
  unfold wrapped. intros Hw Hsz.
  destruct (boxes s !! q) as [b|] eqn:Hb; [|discriminate].
  destruct (dynamic_type program (m_buffer b)) as [[G|G]|] eqn:Hd; [| |discriminate].
  - destruct (Nat.leb_spec (PTR_SIZE + f_sizeof G) (length (m_buffer b))) as [Hl|Hl];
      [|discriminate].
    injection Hw as -> <- <-.
    destruct (FunctionConcept_call_value s q b F args Hb Hd Hl Hsz) as (buf & _ & Hc).
    eexists. split; [exact Hc | reflexivity].
  - cbv zeta in Hw. destruct (objs s !! _) as [bs'|] eqn:Ho; [|discriminate].
    injection Hw as -> <- ->.
    eexists. split; [exact (FunctionConcept_call_lref s q b F bs args Hb Hd Ho) | reflexivity].
Qed.

Lemma call_nonempty (s : State) (this q : Z) (b : FunctionBuffer) (args : Args) :
  boxes s !! this = Some b -> m_func b = Some q ->
  FunctionBuffer_call program this args s = FunctionConcept_call program q args s.
Proof. intros Hb Hq. munfold. by rewrite Hb, Hq. Qed.

Lemma call_empty (s : State) (this : Z) (b : FunctionBuffer) (args : Args) :
  boxes s !! this = Some b -> m_func b = None ->
  FunctionBuffer_call program this args s =
    Some (Raised (runtime_error "The function buffer is empty!"), s).
Proof. intros Hb Hq. munfold. by rewrite Hb, Hq. Qed.

Lemma call_wrapped (s : State) (this a : Z) (b : FunctionBuffer)
      (F : Functor R Args E) (bs : list Z) (args : Args) :
  boxes s !! this = Some b -> m_func b = Some this ->
  wrapped program s this = Some (F, a, bs) ->
  functor_sized F ->
  exists s', FunctionBuffer_call program this args s
             = Some (fst (fst (f_call F a bs args (objs s))), s')
             /\ trace s' = trace s.
Proof.
  intros Hb Hq Hw Hsz. rewrite (call_nonempty s this this b args Hb Hq).
  by apply FunctionConcept_call_wrapped.
Qed.

(* ------------------------------------------------------------------- *)
(** *** Destroying the held adapter *)

Lemma destroy_held_empty (s : State) (this : Z) (b : FunctionBuffer) :
  boxes s !! this = Some b -> m_func b = None ->
  destroy_held program this s = Some (tt, s).
Proof. intros Hb Hq. munfold. by rewrite Hb, Hq. Qed.

(** The array of a destroyed adapter: the member bytes the destructor of
    the callable left, under the vtable pointer of [FunctionConcept]. *)
Lemma destroy_held_value (s : State) (this : Z) (b : FunctionBuffer)
      (F : Functor R Args E) :
  boxes s !! this = Some b -> m_func b = Some this ->
  dynamic_type program (m_buffer b) = Some (T_value F) ->
  (PTR_SIZE + f_sizeof F <= length (m_buffer b))%nat ->
  functor_sized F ->
  let bs := read_bytes PTR_SIZE (f_sizeof F) (m_buffer b) in
  let r := f_dtor F (member_address this) bs (objs s) in
  exists buf1 buf,
    write_bytes PTR_SIZE (fst r) (m_buffer b) = Some buf1 /\
    write_bytes 0 (encode_ptr FunctionConcept_vtable) buf1 = Some buf /\
    destroy_held program this s =
      Some (tt, mkState (<[this := mkFunctionBuffer buf (Some this)]> (boxes s))
                        (snd r)
                        (trace s ++ [EvModelDtor (f_vtable F) this;
                                     EvFunctorDtor (f_vtable F) bs])).
Proof.
  intros Hb Hq Hd Hlen Hsz bs r.
  assert (Hbs : length bs = f_sizeof F).
  { unfold bs, read_bytes. rewrite length_take, length_drop. lia. }
  assert (Hw : write_bytes PTR_SIZE (fst r) (m_buffer b) =
               Some (take PTR_SIZE (m_buffer b) ++ fst r ++
                     drop (PTR_SIZE + length (fst r)) (m_buffer b))).
  { apply write_bytes_fits. unfold r. rewrite (sz_dtor_length F Hsz _ _ _ Hbs). lia. }
  set (buf1 := take PTR_SIZE (m_buffer b) ++ fst r ++
               drop (PTR_SIZE + length (fst r)) (m_buffer b)) in *.
  assert (Hl1 : length buf1 = length (m_buffer b))
    by exact (write_bytes_length _ _ _ _ Hw).
  assert (Hw2 : write_bytes 0 (encode_ptr FunctionConcept_vtable) buf1 =
                Some (take 0 buf1 ++ encode_ptr FunctionConcept_vtable ++
                      drop (0 + length (encode_ptr FunctionConcept_vtable)) buf1)).
  { apply write_bytes_fits. rewrite length_encode_ptr, Hl1. lia. }
  eexists _, _. split; [exact Hw|]. split; [exact Hw2|].
  unfold destroy_held, FunctionConcept_dtor, FunctionModel_dtor. munfold.
  mstep Hb. rewrite Hq. mstep Hb.
  rewrite Hd. mstep Hb. fold bs. fold r. rewrite Hw. mstep Hb.
  rewrite lookup_insert_eq. mred. rewrite Hw2. mred.
  rewrite lookup_insert_eq. mred. rewrite insert_insert_eq, Hq.
  cbn [vtable_of]. by rewrite <- app_assoc.
Qed.

Lemma destroy_held_lref (s : State) (this : Z) (b : FunctionBuffer)
      (F : Functor R Args E) :
  boxes s !! this = Some b -> m_func b = Some this ->
  dynamic_type program (m_buffer b) = Some (T_lref F) ->
  (PTR_SIZE <= length (m_buffer b))%nat ->
  exists buf,
    write_bytes 0 (encode_ptr FunctionConcept_vtable) (m_buffer b) = Some buf /\
    destroy_held program this s =
      Some (tt, mkState (<[this := mkFunctionBuffer buf (Some this)]> (boxes s))
                        (objs s)
                        (trace s ++ [EvModelDtor (f_vtable_ref F) this])).
Proof.
  intros Hb Hq Hd Hlen.
  assert (Hw : write_bytes 0 (encode_ptr FunctionConcept_vtable) (m_buffer b) =
               Some (take 0 (m_buffer b) ++ encode_ptr FunctionConcept_vtable ++
                     drop (0 + length (encode_ptr FunctionConcept_vtable)) (m_buffer b))).
  { apply write_bytes_fits. rewrite length_encode_ptr. lia. }
  eexists. split; [exact Hw|].
  unfold destroy_held, FunctionConcept_dtor, FunctionModel_dtor. munfold.
  mstep Hb. rewrite Hq. mstep Hb. rewrite Hd. mstep Hb. mstep Hb. rewrite Hw. mstep Hb.
  by rewrite Hq.
Qed.

(* ------------------------------------------------------------------- *)
(** *** Placement of a new adapter *)

Lemma placement_new_value (s : State) (this func : Z) (b : FunctionBuffer)
      (F : Functor R Args E) (bs : list Z) :
  boxes s !! this = Some b ->
  length (m_buffer b) = MAX_BUFFER_SIZE ->
  (sizeof_FunctionModel (T_value F) <= MAX_BUFFER_SIZE)%nat ->
  objs s !! func = Some bs ->
  length bs = f_sizeof F ->
  functor_sized F ->
  let r := f_move F (member_address this) func bs (objs s) in
  placement_new this (T_value F) func s =
    Some (this,
          mkState (<[this := mkFunctionBuffer
                       (encode_ptr (f_vtable F) ++ fst (fst r) ++
                        drop (PTR_SIZE + f_sizeof F) (m_buffer b))
                       (m_func b)]> (boxes s))
                  (<[func := snd (fst r)]> (snd r))
                  (trace s ++ [EvFunctorMove (f_vtable F);
                               EvModelCtor (f_vtable F) this])).
Proof.
  intros Hb Hlen Hfit Ho Hbs Hsz r.
  assert (Hm : length (fst (fst r)) = f_sizeof F)
    by (unfold r; exact (sz_move_length F Hsz _ _ _ _ Hbs)).
  assert (Hs32 : (f_sizeof F <= 32)%nat).
  { unfold sizeof_FunctionModel, MAX_BUFFER_SIZE, PTR_SIZE in Hfit.
    cbn [sizeof_member] in Hfit. apply align_up_8_le_32. lia. }
  unfold placement_new.
  destruct (Nat.leb_spec (sizeof_FunctionModel (T_value F)) MAX_BUFFER_SIZE); [|lia].
  unfold FunctionModel_ctor. munfold. rewrite Ho. mred. fold r. mstep Hb.
  cbn [vtable_of].
  rewrite write_bytes_fits
    by (rewrite length_app, length_encode_ptr, Hm, Hlen;
        unfold PTR_SIZE, MAX_BUFFER_SIZE; lia).
  mstep Hb. cbn [take].
  rewrite length_app, length_encode_ptr, Hm. cbn [Nat.add app].
  by rewrite <- !app_assoc.
Qed.

Lemma placement_new_lref (s : State) (this func : Z) (b : FunctionBuffer)
      (F : Functor R Args E) :
  boxes s !! this = Some b ->
  length (m_buffer b) = MAX_BUFFER_SIZE ->
  placement_new this (T_lref F) func s =
    Some (this,
          mkState (<[this := mkFunctionBuffer
                       (encode_ptr (f_vtable_ref F) ++ encode_ptr func ++
                        drop (PTR_SIZE + PTR_SIZE) (m_buffer b))
                       (m_func b)]> (boxes s))
                  (objs s)
                  (trace s ++ [EvModelCtor (f_vtable_ref F) this])).
Proof.
  intros Hb Hlen.
  unfold placement_new.
  change ((sizeof_FunctionModel (T_lref F) <=? MAX_BUFFER_SIZE)%nat) with true.
  unfold FunctionModel_ctor. munfold. mstep Hb. cbn [vtable_of].
  rewrite write_bytes_fits
    by (rewrite length_app, !length_encode_ptr, Hlen;
        unfold PTR_SIZE, MAX_BUFFER_SIZE; lia).
  mstep Hb. cbn [take].
  rewrite length_app, !length_encode_ptr. cbn [Nat.add app].
  by rewrite <- !app_assoc.
Qed.

(* ------------------------------------------------------------------- *)
(** *** What a freshly placed adapter wraps *)

Lemma wrapped_placed_value (s : State) (q : Z) (F : Functor R Args E)
      (member rest : list Z) (h : option Z) :
  boxes s !! q = Some (mkFunctionBuffer (encode_ptr (f_vtable F) ++ member ++ rest) h) ->
  registered program (T_value F) ->
  length member = f_sizeof F ->
  wrapped program s q = Some (F, member_address q, member).
Proof.
  intros Hb Hreg Hm. unfold wrapped. rewrite Hb. mred.
  rewrite (dynamic_type_placed (T_value F) _ Hreg).
  destruct (Nat.leb_spec (PTR_SIZE + f_sizeof F)
              (length (encode_ptr (f_vtable F) ++ member ++ rest))) as [_|Hl].
  - unfold read_bytes.
    rewrite (drop_app_length' _ _ PTR_SIZE (eq_sym (length_encode_ptr _))).
    by rewrite (take_app_length' _ _ (f_sizeof F) (eq_sym Hm)).
  - rewrite !length_app, length_encode_ptr, Hm in Hl. lia.
Qed.

Lemma wrapped_placed_lref (s : State) (q func : Z) (F : Functor R Args E)
      (bs rest : list Z) (h : option Z) :
  boxes s !! q
    = Some (mkFunctionBuffer (encode_ptr (f_vtable_ref F) ++ encode_ptr func ++ rest) h) ->
  registered program (T_lref F) ->
  0 <= func < 2 ^ 64 ->
  objs s !! func = Some bs ->
  wrapped program s q = Some (F, func, bs).
Proof.
  intros Hb Hreg Hf Ho. unfold wrapped. rewrite Hb. mred.
  rewrite (dynamic_type_placed (T_lref F) _ Hreg).
  unfold read_bytes. cbv zeta.
  rewrite (drop_app_length' _ _ PTR_SIZE (eq_sym (length_encode_ptr _))).
  rewrite (take_app_length' _ _ PTR_SIZE (eq_sym (length_encode_ptr _))).
  by rewrite (decode_encode_ptr func Hf), Ho.
Qed.

(* ------------------------------------------------------------------- *)
(** *** Construction and assignment from a callable *)

Lemma bind_Some {A B} (c : M A) (k : A -> M B) (s s' : State) (a : A) :
  c s = Some (a, s') -> bind c k s = k a s'.
Proof. intros H. unfold bind. by rewrite H. Qed.

Lemma alloc_box_fresh (s : State) (this : Z) :
  boxes s !! this = None ->
  alloc_box this s =
    Some (tt, mkState (<[this := mkFunctionBuffer (repeat 0 MAX_BUFFER_SIZE) None]> (boxes s))
                      (objs s) (trace s)).
Proof. intros H. unfold alloc_box. by rewrite H. Qed.

Lemma set_m_func_at (s : State) (p : Z) (b : FunctionBuffer) (h : option Z) :
  boxes s !! p = Some b ->
  set_m_func p h s =
    Some (tt, mkState (<[p := mkFunctionBuffer (m_buffer b) h]> (boxes s))
                      (objs s) (trace s)).
Proof. intros H. munfold. by rewrite H. Qed.

Lemma set_m_buffer_at (s : State) (p : Z) (b : FunctionBuffer) (buf : list Z) :
  boxes s !! p = Some b ->
  set_m_buffer p buf s =
    Some (tt, mkState (<[p := mkFunctionBuffer buf (m_func b)]> (boxes s))
                      (objs s) (trace s)).
Proof. intros H. munfold. by rewrite H. Qed.

Lemma fits_value_size (F : Functor R Args E) :
  (sizeof_FunctionModel (T_value F) <= MAX_BUFFER_SIZE)%nat ->
  (PTR_SIZE + f_sizeof F <= MAX_BUFFER_SIZE)%nat.
Proof.
  unfold sizeof_FunctionModel, MAX_BUFFER_SIZE, PTR_SIZE. cbn [sizeof_member].
  intros H. pose proof (align_up_8_bounds (f_sizeof F)). lia.
Qed.

(** Placing a [FunctionModel<T>] into an existing FunctionBuffer and
    setting the handle: the two last steps of construction and of
    assignment. *)
Lemma place_ok (T : TArg R Args E) (s : State) (this func : Z)
      (b : FunctionBuffer) (bs : list Z) :
  registered program T ->
  functor_sized (functor_of T) ->
  (sizeof_FunctionModel T <= MAX_BUFFER_SIZE)%nat ->
  boxes s !! this = Some b ->
  length (m_buffer b) = MAX_BUFFER_SIZE ->
  0 <= func < 2 ^ 64 ->
  objs s !! func = Some bs ->
  length bs = f_sizeof (functor_of T) ->
  exists s1 b1,
    (q <- placement_new this T func ;; set_m_func this (Some q)) s = Some (tt, s1) /\
    boxes s1 = <[this := b1]> (boxes s) /\
    occupied_by program this b1 T /\
    trace s1 = trace s ++ placement_events T this /\
    match T with
    | T_value F =>
        let r := f_move F (member_address this) func bs (objs s) in
        wrapped program s1 this = Some (F, member_address this, fst (fst r)) /\
        objs s1 = <[func := snd (fst r)]> (snd r)
    | T_lref F =>
        wrapped program s1 this = Some (F, func, bs) /\ objs s1 = objs s
    end.
Proof.
  intros Hreg Hsz Hfit Hb Hlen Hfunc Ho Hbs.
  destruct T as [F|F]; cbn [functor_of] in *.
  - assert (Hm : length (fst (fst (f_move F (member_address this) func bs (objs s))))
                 = f_sizeof F)
      by exact (sz_move_length F Hsz _ _ _ _ Hbs).
    pose proof (fits_value_size F Hfit) as Hs40.
    eexists _, _. split.
    { rewrite (bind_Some _ _ _ _ _
                 (placement_new_value s this func b F bs Hb Hlen Hfit Ho Hbs Hsz)).
      erewrite set_m_func_at by (mred; apply lookup_insert_eq).
      mred. reflexivity. }
    mred. split; [by rewrite insert_insert_eq|].
    split; [|split; [reflexivity|split; [|reflexivity]]].
    + repeat split; mred; try assumption.
      * rewrite !length_app, length_encode_ptr, Hm, length_drop, Hlen.
        unfold PTR_SIZE, MAX_BUFFER_SIZE in *. lia.
      * exact (dynamic_type_placed (T_value F) _ Hreg).
    + eapply wrapped_placed_value; [mred; apply lookup_insert_eq | exact Hreg | exact Hm].
  - eexists _, _. split.
    { rewrite (bind_Some _ _ _ _ _ (placement_new_lref s this func b F Hb Hlen)).
      erewrite set_m_func_at by (mred; apply lookup_insert_eq).
      mred. reflexivity. }
    mred. split; [by rewrite insert_insert_eq|].
    split; [|split; [reflexivity|split; [|reflexivity]]].
    + repeat split; mred; try assumption.
      * rewrite !length_app, !length_encode_ptr, length_drop, Hlen.
        unfold PTR_SIZE, MAX_BUFFER_SIZE in *. lia.
      * exact (dynamic_type_placed (T_lref F) _ Hreg).
    + eapply wrapped_placed_lref;
        [mred; apply lookup_insert_eq | exact Hreg | exact Hfunc | exact Ho].
Qed.

(** After construction the handle points at the object's own buffer, and
    the adapter wraps the moved-to value (rvalue) or the caller's object
    (lvalue). *)
Lemma ctor_ok (T : TArg R Args E) (s : State) (this func : Z) (bs : list Z) :
  registered program T ->
  functor_sized (functor_of T) ->
  (sizeof_FunctionModel T <= MAX_BUFFER_SIZE)%nat ->
  boxes s !! this = None ->
  0 <= func < 2 ^ 64 ->
  objs s !! func = Some bs ->
  length bs = f_sizeof (functor_of T) ->
  exists s1 b1,
    run (FunctionBuffer_ctor T) this func s = Some (tt, s1) /\
    boxes s1 = <[this := b1]> (boxes s) /\
    occupied_by program this b1 T /\
    trace s1 = trace s ++ placement_events T this /\
    match T with
    | T_value F =>
        let r := f_move F (member_address this) func bs (objs s) in
        wrapped program s1 this = Some (F, member_address this, fst (fst r)) /\
        objs s1 = <[func := snd (fst r)]> (snd r)
    | T_lref F =>
        wrapped program s1 this = Some (F, func, bs) /\ objs s1 = objs s
    end.
Proof.
  intros Hreg Hsz Hfit Hfresh Hfunc Ho Hbs.
  unfold run, FunctionBuffer_ctor.
  destruct (Nat.leb_spec (sizeof_FunctionModel T) MAX_BUFFER_SIZE); [|lia].
  rewrite (bind_Some _ _ _ _ _ (alloc_box_fresh s this Hfresh)).
  edestruct (place_ok T
               (mkState (<[this := mkFunctionBuffer (repeat 0 MAX_BUFFER_SIZE) None]> (boxes s))
                        (objs s) (trace s)) this func
               (mkFunctionBuffer (repeat 0 MAX_BUFFER_SIZE) None) bs)
    as (s1 & b1 & Hrun & Hboxes & Hrest); try eassumption.
  { mred. apply lookup_insert_eq. }
  { mred. apply repeat_length. }
  exists s1, b1. split; [exact Hrun|].
  split; [|exact Hrest].
  rewrite Hboxes. mred. by rewrite insert_insert_eq.
Qed.

(* ------------------------------------------------------------------- *)
(** *** Duplicated bytes *)


(** What a handle wraps depends on the bytes under it and on the memory
    outside the buffers only. *)
Lemma wrapped_transport (s s1 : State) (q : Z) (b b1 : FunctionBuffer) :
  boxes s !! q = Some b ->
  boxes s1 !! q = Some b1 ->
  m_buffer b1 = m_buffer b ->
  objs s1 = objs s ->
  wrapped program s1 q = wrapped program s q.
Proof.
  intros Hb Hb1 Hbuf Hobjs. unfold wrapped. by rewrite Hb, Hb1, Hbuf, Hobjs.
Qed.

(** Destroying what a FunctionBuffer holds, when it holds nothing or a
    trivially copyable callable, leaves the other FunctionBuffers and the
    memory outside them as they were. *)
Lemma destroy_trivial (s : State) (this : Z) (d : FunctionBuffer) :
  boxes s !! this = Some d ->
  length (m_buffer d) = MAX_BUFFER_SIZE ->
  (m_func d = None \/
   exists G aG bsG, m_func d = Some (buffer_address this) /\
                    wrapped program s this = Some (G, aG, bsG) /\
                    functor_sized G /\ trivially_copyable G) ->
  exists evs d',
    destroy_held program this s
    = Some (tt, mkState (<[this := d']> (boxes s)) (objs s) (trace s ++ evs)) /\
    length (m_buffer d') = MAX_BUFFER_SIZE /\
    m_func d' = m_func d.
Proof.
  intros Hd Hlen [Hnull | (G & aG & bsG & Hq & Hw & Hsz & Htriv)].
  - exists [], d. rewrite (destroy_held_empty s this d Hd Hnull).
    rewrite app_nil_r, (insert_id _ _ _ Hd). split; [by destruct s|]. by split.
  - unfold wrapped in Hw. rewrite Hd in Hw.
    destruct (dynamic_type program (m_buffer d)) as [[F|F]|] eqn:Hdyn; [| |discriminate].
    + destruct (Nat.leb_spec (PTR_SIZE + f_sizeof F) (length (m_buffer d))) as [Hl|Hl];
        [|discriminate].
      injection Hw as -> <- <-.
      destruct (destroy_held_value s this d G Hd Hq Hdyn Hl Hsz)
        as (buf1 & buf & Hw1 & Hw2 & Hdes).
      rewrite (triv_dtor G Htriv) in Hdes. cbn [fst snd] in Hdes.
      eexists _, _. split; [exact Hdes|]. mred.
      rewrite (write_bytes_length _ _ _ _ Hw2), (write_bytes_length _ _ _ _ Hw1).
      by rewrite Hq.
    + destruct (destroy_held_lref s this d F Hd Hq Hdyn) as (buf & Hw1 & Hdes).
      { rewrite Hlen. unfold PTR_SIZE, MAX_BUFFER_SIZE. lia. }
      eexists _, _. split; [exact Hdes|]. mred.
      rewrite (write_bytes_length _ _ _ _ Hw1). by rewrite Hq.
Qed.


Lemma bool_at (s : State) (this : Z) (b : FunctionBuffer) :
  boxes s !! this = Some b ->
  FunctionBuffer_bool this s
  = Some (match m_func b with Some _ => true | None => false end, s).
Proof. intros Hb. munfold. by rewrite Hb. Qed.


Lemma occupied_value_size (this : Z) (b : FunctionBuffer) (F : Functor R Args E) :
  occupied_by program this b (T_value F) ->
  (PTR_SIZE + f_sizeof F <= length (m_buffer b))%nat.
Proof.
  intros (_ & Hlen & _ & Hfit). rewrite Hlen. by apply fits_value_size.
Qed.

Lemma dtor_empty (s : State) (this : Z) (b : FunctionBuffer) :
  boxes s !! this = Some b -> m_func b = None ->
  FunctionBuffer_dtor program this s
  = Some (tt, mkState (delete this (boxes s)) (objs s) (trace s)).
Proof.
  intros Hb Hq. unfold FunctionBuffer_dtor.
  by rewrite (bind_Some _ _ _ _ _ (destroy_held_empty s this b Hb Hq)).
Qed.

Lemma dtor_value (s : State) (this : Z) (b : FunctionBuffer) (G : Functor R Args E) :
  boxes s !! this = Some b ->
  occupied_by program this b (T_value G) ->
  functor_sized G ->
  let old := read_bytes PTR_SIZE (f_sizeof G) (m_buffer b) in
  FunctionBuffer_dtor program this s
  = Some (tt, mkState (delete this (boxes s))
                      (snd (f_dtor G (member_address this) old (objs s)))
                      (trace s ++ [EvModelDtor (f_vtable G) this;
                                   EvFunctorDtor (f_vtable G) old])).
Proof.
  intros Hb Hocc Hsz old.
  pose proof (occupied_value_size this b G Hocc) as Hl.
  destruct Hocc as (Hq & _ & Hd & _).
  destruct (destroy_held_value s this b G Hb Hq Hd Hl Hsz) as (buf1 & buf & _ & _ & Hdes).
  unfold FunctionBuffer_dtor. rewrite (bind_Some _ _ _ _ _ Hdes).
  unfold free_box. mred. by rewrite delete_insert_eq.
Qed.

(** Move construction sets the handle of the new object whatever the
    handle of the source is, and then empties the source. *)
Lemma move_ctor_run (s : State) (this other : Z) (b : FunctionBuffer) :
  boxes s !! other = Some b ->
  boxes s !! this = None ->
  FunctionBuffer_move_ctor this other s
  = Some (tt, mkState (<[other := mkFunctionBuffer (m_buffer b) None]>
                         (<[this := mkFunctionBuffer (m_buffer b) (Some this)]> (boxes s)))
                      (objs s) (trace s)).
Proof.
  intros Hb Hfresh. assert (Hne : this <> other) by congruence.
  munfold. rewrite Hfresh. mred. rewrite lookup_insert_ne, Hb by done. mred.
  rewrite lookup_insert_eq. mred. rewrite insert_insert_eq, lookup_insert_eq. mred.
  rewrite insert_insert_eq, lookup_insert_ne, Hb by done. reflexivity.
Qed.

End Execution.

(* ===================================================================== *)
(** ** An invariant of every operation: a handle is null or points at the
       array of its own object *)

Section Invariant.

Context {R Args E : Type}.
Variable program : list (Functor R Args E).

Lemma keeps_weaken {A} (c : M A) (post post' : A -> Prop) :
  keeps c post -> (forall a, post a -> post' a) -> keeps c post'.
Proof. intros Hc Himp s a s' Hs Hrun. destruct (Hc s a s' Hs Hrun). auto. Qed.

Lemma keeps_ret {A} (a : A) (post : A -> Prop) : post a -> keeps (ret a) post.
Proof. intros Hp s a' s' Hs [= <- <-]. auto. Qed.

Lemma keeps_bind {A B} (c : M A) (k : A -> M B) (mid : A -> Prop) (post : B -> Prop) :
  keeps c mid -> (forall a, mid a -> keeps (k a) post) -> keeps (bind c k) post.
Proof.
  intros Hc Hk s b s' Hs Hrun. unfold bind in Hrun.
  destruct (c s) as [[a s1]|] eqn:Hcs; [|discriminate].
  destruct (Hc s a s1 Hs Hcs) as [Hs1 Hmid].
  exact (Hk a Hmid s1 b s' Hs1 Hrun).
Qed.

Lemma keeps_undefined {A} (post : A -> Prop) : keeps undefined post.
Proof. intros s a s' _ [=]. Qed.

Lemma keeps_lift {A} (o : option A) : keeps (lift o) (fun _ => True).
Proof. intros s a s' Hs Hrun. unfold lift in Hrun. destruct o; by simplify_eq. Qed.

Lemma keeps_log (e : Event) : keeps (log e) (fun _ => True).
Proof. intros s a s' Hs [= <- <-]. split; [exact Hs | exact I]. Qed.

Lemma keeps_load_box (p : Z) : keeps (load_box p) (fun _ => True).
Proof.
  intros s a s' Hs Hrun. unfold load_box in Hrun.
  destruct (boxes s !! p); by simplify_eq.
Qed.

Lemma keeps_load_obj (a : Z) : keeps (load_obj a) (fun _ => True).
Proof.
  intros s x s' Hs Hrun. unfold load_obj in Hrun.
  destruct (objs s !! a); by simplify_eq.
Qed.

Lemma keeps_store_obj (a : Z) (bs : list Z) : keeps (store_obj a bs) (fun _ => True).
Proof. intros s x s' Hs [= <- <-]. split; [exact Hs | exact I]. Qed.

Lemma keeps_get_objs : keeps get_objs (fun _ => True).
Proof. intros s x s' Hs [= <- <-]. split; [exact Hs | exact I]. Qed.

Lemma keeps_put_objs (h : gmap Z (list Z)) : keeps (put_objs h) (fun _ => True).
Proof. intros s x s' Hs [= <- <-]. split; [exact Hs | exact I]. Qed.

Lemma keeps_alloc_box (p : Z) : keeps (alloc_box p) (fun _ => True).
Proof.
  intros s x s' Hs Hrun. unfold alloc_box in Hrun.
  destruct (boxes s !! p) eqn:Hp; [discriminate|]. injection Hrun as <- <-.
  split; [|exact I]. intros q b. mred.
  destruct (decide (p = q)) as [->|Hne].
  - rewrite lookup_insert_eq. intros [= <-]. by left.
  - rewrite lookup_insert_ne by done. apply Hs.
Qed.

Lemma keeps_free_box (p : Z) : keeps (free_box p) (fun _ => True).
Proof.
  intros s x s' Hs [= <- <-]. split; [|exact I]. intros q b. mred.
  destruct (decide (p = q)) as [->|Hne].
  - by rewrite lookup_delete_eq.
  - rewrite lookup_delete_ne by done. apply Hs.
Qed.

Lemma keeps_set_m_buffer (p : Z) (buf : list Z) :
  keeps (set_m_buffer p buf) (fun _ => True).
Proof.
  intros s x s' Hs Hrun. unfold set_m_buffer, bind, load_box, store_box in Hrun.
  destruct (boxes s !! p) as [b|] eqn:Hp; [|discriminate]. injection Hrun as <- <-.
  split; [|exact I]. intros q b'. mred.
  destruct (decide (p = q)) as [->|Hne].
  - rewrite lookup_insert_eq. intros [= <-]. mred. exact (Hs q b Hp).
  - rewrite lookup_insert_ne by done. apply Hs.
Qed.

Lemma keeps_set_m_func (p : Z) (h : option Z) :
  h = None \/ h = Some (buffer_address p) ->
  keeps (set_m_func p h) (fun _ => True).
Proof.
  intros Hh s x s' Hs Hrun. unfold set_m_func, bind, load_box, store_box in Hrun.
  destruct (boxes s !! p) as [b|] eqn:Hp; [|discriminate]. injection Hrun as <- <-.
  split; [|exact I]. intros q b'. mred.
  destruct (decide (p = q)) as [->|Hne].
  - rewrite lookup_insert_eq. intros [= <-]. exact Hh.
  - rewrite lookup_insert_ne by done. apply Hs.
Qed.

#[local] Hint Resolve keeps_lift keeps_log keeps_load_box keeps_load_obj keeps_store_obj
  keeps_get_objs keeps_put_objs keeps_alloc_box keeps_free_box keeps_set_m_buffer
  keeps_undefined : keeps.

(** Sequencing steps none of which needs the value of the one before. *)
Ltac keeps_seq :=
  repeat first
    [ apply keeps_ret; solve [auto]
    | solve [eauto with keeps]
    | eapply keeps_bind; [solve [eauto with keeps] | intros ? _; cbv zeta] ].

Lemma keeps_FunctionModel_ctor (T : TArg R Args E) (self func : Z) :
  keeps (FunctionModel_ctor T self func) (fun _ => True).
Proof. destruct T as [F|F]; unfold FunctionModel_ctor; keeps_seq. Qed.

Lemma keeps_placement_new (this : Z) (T : TArg R Args E) (func : Z) :
  keeps (placement_new this T func) (fun q => q = buffer_address this).
Proof.
  unfold placement_new.
  destruct (sizeof_FunctionModel T <=? MAX_BUFFER_SIZE)%nat; [|apply keeps_undefined].
  eapply keeps_bind; [apply keeps_FunctionModel_ctor | intros ? _].
  keeps_seq.
Qed.

Lemma keeps_FunctionConcept_call (q : Z) (args : Args) :
  keeps (FunctionConcept_call program q args) (fun _ => True).
Proof.
  unfold FunctionConcept_call.
  eapply keeps_bind; [apply keeps_load_box | intros b _].
  eapply keeps_bind; [apply keeps_lift | intros [F|F] _]; keeps_seq.
Qed.

Lemma keeps_FunctionModel_dtor (T : TArg R Args E) (q : Z) :
  keeps (FunctionModel_dtor T q) (fun _ => True).
Proof.
  unfold FunctionModel_dtor.
  eapply keeps_bind; [apply keeps_load_box | intros b _].
  destruct T as [F|F]; keeps_seq.
Qed.

Lemma keeps_FunctionConcept_dtor (q : Z) :
  keeps (FunctionConcept_dtor program q) (fun _ => True).
Proof.
  unfold FunctionConcept_dtor.
  eapply keeps_bind; [apply keeps_load_box | intros b _].
  eapply keeps_bind; [apply keeps_lift | intros T _].
  eapply keeps_bind; [apply keeps_log | intros ? _].
  eapply keeps_bind; [apply keeps_FunctionModel_dtor | intros ? _].
  keeps_seq.
Qed.

Lemma keeps_destroy_held (this : Z) :
  keeps (destroy_held program this) (fun _ => True).
Proof.
  unfold destroy_held.
  eapply keeps_bind; [apply keeps_load_box | intros b _].
  destruct (m_func b); [apply keeps_FunctionConcept_dtor | by apply keeps_ret].
Qed.

(** Every public operation keeps the invariant. *)
Lemma keeps_exec (o : Op R Args E) : keeps (exec program o) (fun _ => True).
Proof.
  destruct o; cbn [exec].
  - unfold run, FunctionBuffer_ctor.
    destruct (sizeof_FunctionModel T <=? MAX_BUFFER_SIZE)%nat; [|apply keeps_undefined].
    eapply keeps_bind; [apply keeps_alloc_box | intros ? _].
    eapply keeps_bind; [apply keeps_placement_new | intros q ->].
    apply keeps_set_m_func. by right.
  - unfold run, FunctionBuffer_assign.
    eapply keeps_bind; [apply keeps_destroy_held | intros ? _].
    eapply keeps_bind; [apply keeps_placement_new | intros q ->].
    apply keeps_set_m_func. by right.
  - eapply keeps_bind; [|intros ? _; by apply keeps_ret].
    unfold FunctionBuffer_call.
    eapply keeps_bind; [apply keeps_load_box | intros b _].
    destruct (m_func b); [apply keeps_FunctionConcept_call | by apply keeps_ret].
  - unfold FunctionBuffer_dtor.
    eapply keeps_bind; [apply keeps_destroy_held | intros ? _].
    apply keeps_free_box.
  - apply keeps_undefined.
  - unfold FunctionBuffer_copy_assign.
    eapply keeps_bind; [apply keeps_destroy_held | intros ? _].
    eapply keeps_bind; [apply keeps_load_box | intros b _].
    eapply keeps_bind; [apply keeps_set_m_buffer | intros ? _].
    apply keeps_set_m_func. by right.
  - unfold FunctionBuffer_move_ctor.
    eapply keeps_bind; [apply keeps_alloc_box | intros ? _].
    eapply keeps_bind; [apply keeps_load_box | intros b _].
    eapply keeps_bind; [apply keeps_set_m_buffer | intros ? _].
    eapply keeps_bind; [apply keeps_set_m_func; by right | intros ? _].
    apply keeps_set_m_func. by left.
  - unfold FunctionBuffer_move_assign.
    eapply keeps_bind; [apply keeps_destroy_held | intros ? _].
    eapply keeps_bind; [apply keeps_load_box | intros b _].
    eapply keeps_bind; [apply keeps_set_m_buffer | intros ? _].
    eapply keeps_bind; [apply keeps_set_m_func; by right | intros ? _].
    apply keeps_set_m_func. by left.
Qed.

(** X1. In every state reached by public operations from a state without
    FunctionBuffers, each handle is null or the address of the array of
    its own object. *)
Lemma reachable_handles_own (os : list (Op R Args E)) (s0 s : State) :
  boxes s0 = ∅ ->
  exec_all program os s0 = Some (tt, s) ->
  handles_own s.
Proof.
  intros Hempty.
  assert (H0 : handles_own s0).
  { intros p b. rewrite Hempty, lookup_empty. discriminate. }
  clear Hempty. revert s0 H0.
  induction os as [|o os IH]; intros s0 H0 Hrun; cbn [exec_all] in Hrun.
  - injection Hrun as <-. exact H0.
  - unfold bind in Hrun.
    destruct (exec program o s0) as [[[] s1]|] eqn:Ho; [|discriminate].
    destruct (keeps_exec o s0 tt s1 H0 Ho) as [H1 _].
    exact (IH s1 H1 Hrun).
Qed.

End Invariant.

(* ===================================================================== *)
(** ** Properties of the container *)

Section Properties.

Context {R Args E : Type}.
Variable program : list (Functor R Args E).

(** C1. For a callable whose adapter fits in the buffer, constructing a
    FunctionBuffer from it and then invoking the buffer with [args]
    returns what invoking the callable directly with [args] returns.
    [T] covers both ways of passing the callable: as an rvalue (the
    adapter holds a moved-to value, and the callable's own move
    constructor is taken to keep its answer) and as an lvalue. *)
Theorem construct_then_call_agrees
    (T : TArg R Args E) (s : State) (this func : Z) (bs : list Z) (args : Args) :
  registered program T ->
  functor_sized (functor_of T) ->
  move_keeps_answer T (member_address this) func bs args (objs s) ->
  (sizeof_FunctionModel T <= MAX_BUFFER_SIZE)%nat ->
  boxes s !! this = None ->
  0 <= func < 2 ^ 64 ->
  objs s !! func = Some bs ->
  length bs = f_sizeof (functor_of T) ->
  exists out s1 s2 s3,
    run (FunctionBuffer_ctor T) this func s = Some (tt, s1) /\
    FunctionBuffer_call program this args s1 = Some (out, s2) /\
    direct_call (functor_of T) func args s = Some (out, s3).
Proof.
  intros Hreg Hsz Hmove Hfit Hfresh Hfunc Ho Hbs.
  destruct (ctor_ok program T s this func bs Hreg Hsz Hfit Hfresh Hfunc Ho Hbs)
    as (s1 & b1 & Hrun & Hboxes & (Hh1 & _) & _ & Hpost).
  assert (Hb1 : boxes s1 !! this = Some b1) by (rewrite Hboxes; apply lookup_insert_eq).
  assert (Hdirect : direct_call (functor_of T) func args s =
                    Some (fst (fst (f_call (functor_of T) func bs args (objs s))),
                          mkState (boxes s)
                            (<[func := snd (fst (f_call (functor_of T) func bs args (objs s)))]>
                               (snd (f_call (functor_of T) func bs args (objs s))))
                            (trace s))).
  { munfold. by rewrite Ho. }
  destruct T as [F|F]; cbn [functor_of] in *; cbv zeta in Hpost;
    destruct Hpost as [Hw Hobjs].
  - destruct (call_wrapped program s1 this _ b1 F _ args Hb1 Hh1 Hw Hsz) as (s2 & Hcall & _).
    cbn [move_keeps_answer] in Hmove. cbv zeta in Hmove.
    rewrite Hobjs, Hmove in Hcall.
    eauto 10.
  - destruct (call_wrapped program s1 this _ b1 F _ args Hb1 Hh1 Hw Hsz) as (s2 & Hcall & _).
    rewrite Hobjs in Hcall. eauto 10.
Qed.

(** C2. Invoking a FunctionBuffer whose handle is null raises the
    empty-callable error; when the handle is not null, what the wrapped
    callable raises reaches the caller as it is: the invocation is the
    call through the handle, with nothing wrapped around it. *)
Theorem call_error_policy
    (s : State) (this : Z) (b : FunctionBuffer) (args : Args) :
  boxes s !! this = Some b ->
  (m_func b = None ->
     FunctionBuffer_call program this args s
     = Some (Raised (runtime_error "The function buffer is empty!"), s))
  /\
  (forall q F a bs x,
     m_func b = Some q ->
     wrapped program s q = Some (F, a, bs) ->
     functor_sized F ->
     fst (fst (f_call F a bs args (objs s))) = Raised x ->
     exists s', FunctionBuffer_call program this args s = Some (Raised x, s')).
Proof.
  intros Hb. split.
  - intros Hq. exact (call_empty program s this b args Hb Hq).
  - intros q F a bs x Hq Hw Hsz Hx.
    rewrite (call_nonempty program s this q b args Hb Hq).
    destruct (FunctionConcept_call_wrapped program s q a F bs args Hw Hsz) as (s' & Hc & _).
    rewrite Hx in Hc. eauto.
Qed.

(** C10. Invoking an empty FunctionBuffer raises the empty-invocation
    error and leaves the whole state as it was (the handle is still null
    and no byte of the storage has changed); so an assignment followed by
    an invocation behaves after the failed call exactly as without it. *)
Theorem call_empty_leaves_state
    (s : State) (this : Z) (b : FunctionBuffer) (args : Args) :
  boxes s !! this = Some b ->
  m_func b = None ->
  FunctionBuffer_call program this args s
  = Some (Raised (runtime_error "The function buffer is empty!"), s)
  /\
  forall (T : TArg R Args E) (func : Z) (args' : Args),
    (FunctionBuffer_call program this args ;;
     run (FunctionBuffer_assign program T) this func ;;
     FunctionBuffer_call program this args') s
    = (run (FunctionBuffer_assign program T) this func ;;
       FunctionBuffer_call program this args') s.
Proof.
  intros Hb Hq.
  pose proof (call_empty program s this b args Hb Hq) as Hc.
  split; [exact Hc|].
  intros T func args'. by rewrite (bind_Some _ _ _ _ _ Hc).
Qed.


(** X14. Assigning a callable into a FunctionBuffer that holds a callable
    by value runs the destructor of the adapter it held, and with it the
    destructor of the held callable, exactly once, and before anything of
    the new adapter is constructed: the trace grows by the two destructor
    runs followed by the construction events, and the buffer then holds
    the new adapter.  Assigning into an empty FunctionBuffer runs no
    destructor. *)
Theorem assign_destroys_previous_first
    (T : TArg R Args E) (s : State) (this func : Z) (b : FunctionBuffer)
    (bs : list Z) :
  registered program T ->
  functor_sized (functor_of T) ->
  (sizeof_FunctionModel T <= MAX_BUFFER_SIZE)%nat ->
  boxes s !! this = Some b ->
  length (m_buffer b) = MAX_BUFFER_SIZE ->
  0 <= func < 2 ^ 64 ->
  length bs = f_sizeof (functor_of T) ->
  (forall G : Functor R Args E,
     occupied_by program this b (T_value G) ->
     functor_sized G ->
     let old := read_bytes PTR_SIZE (f_sizeof G) (m_buffer b) in
     snd (f_dtor G (member_address this) old (objs s)) !! func = Some bs ->
     exists s' b',
       run (FunctionBuffer_assign program T) this func s = Some (tt, s') /\
       trace s' = trace s
                  ++ [EvModelDtor (f_vtable G) this; EvFunctorDtor (f_vtable G) old]
                  ++ placement_events T this /\
       boxes s' !! this = Some b' /\
       occupied_by program this b' T)
  /\
  (m_func b = None ->
   objs s !! func = Some bs ->
   exists s' b',
     run (FunctionBuffer_assign program T) this func s = Some (tt, s') /\
     trace s' = trace s ++ placement_events T this /\
     boxes s' !! this = Some b' /\
     occupied_by program this b' T).
Proof.
  intros Hreg Hsz Hfit Hb Hlen Hfunc Hbs. split.
  - intros G Hocc HszG old Ho.
    pose proof (occupied_value_size program this b G Hocc) as Hl.
    destruct Hocc as (Hq & _ & Hd & _).
    destruct (destroy_held_value program s this b G Hb Hq Hd Hl HszG)
      as (buf1 & buf & Hw1 & Hw2 & Hdestroy).
    fold old in Hw1, Hdestroy.
    edestruct (place_ok program T
                 (mkState (<[this := mkFunctionBuffer buf (Some this)]> (boxes s))
                          (snd (f_dtor G (member_address this) old (objs s)))
                          (trace s ++ [EvModelDtor (f_vtable G) this;
                                       EvFunctorDtor (f_vtable G) old]))
                 this func (mkFunctionBuffer buf (Some this)) bs)
      as (s' & b' & Hrun & Hboxes & Hocc & Htrace & _); try eassumption.
    { mred. apply lookup_insert_eq. }
    { mred. rewrite (write_bytes_length _ _ _ _ Hw2), (write_bytes_length _ _ _ _ Hw1).
      exact Hlen. }
    exists s', b'. unfold run, FunctionBuffer_assign.
    rewrite (bind_Some _ _ _ _ _ Hdestroy).
    split; [exact Hrun|]. split; [|split; [|exact Hocc]].
    + rewrite Htrace. mred. by rewrite <- app_assoc.
    + rewrite Hboxes. apply lookup_insert_eq.
  - intros Hq Ho.
    destruct (place_ok program T s this func b bs Hreg Hsz Hfit Hb Hlen Hfunc Ho Hbs)
      as (s' & b' & Hrun & Hboxes & Hocc & Htrace & _).
    exists s', b'. unfold run, FunctionBuffer_assign.
    rewrite (bind_Some _ _ _ _ _ (destroy_held_empty program s this b Hb Hq)).
    split; [exact Hrun|]. split; [exact Htrace|]. split; [|exact Hocc].
    rewrite Hboxes. apply lookup_insert_eq.
Qed.

(** X13. When the adapter that is replaced holds a reference (it was made
    from an lvalue), its own destructor runs once and no callable is
    destroyed. *)
Lemma assign_over_reference_adapter
    (T : TArg R Args E) (s : State) (this func : Z) (b : FunctionBuffer)
    (bs : list Z) (G : Functor R Args E) :
  registered program T ->
  functor_sized (functor_of T) ->
  (sizeof_FunctionModel T <= MAX_BUFFER_SIZE)%nat ->
  boxes s !! this = Some b ->
  0 <= func < 2 ^ 64 ->
  length bs = f_sizeof (functor_of T) ->
  occupied_by program this b (T_lref G) ->
  objs s !! func = Some bs ->
  exists s',
    run (FunctionBuffer_assign program T) this func s = Some (tt, s') /\
    trace s' = trace s ++ [EvModelDtor (f_vtable_ref G) this]
                       ++ placement_events T this.
Proof.
  intros Hreg Hsz Hfit Hb Hfunc Hbs (Hq & Hlen & Hd & _) Ho.
  destruct (destroy_held_lref program s this b G Hb Hq Hd) as (buf & Hw & Hdes).
  { rewrite Hlen. unfold PTR_SIZE, MAX_BUFFER_SIZE. lia. }
  edestruct (place_ok program T
               (mkState (<[this := mkFunctionBuffer buf (Some this)]> (boxes s)) (objs s)
                        (trace s ++ [EvModelDtor (f_vtable_ref G) this]))
               this func (mkFunctionBuffer buf (Some this)) bs)
    as (s' & b' & Hrun & _ & _ & Htrace & _); try eassumption.
  { mred. apply lookup_insert_eq. }
  { mred. rewrite (write_bytes_length _ _ _ _ Hw). exact Hlen. }
  exists s'. unfold run, FunctionBuffer_assign.
  rewrite (bind_Some _ _ _ _ _ Hdes).
  split; [exact Hrun|]. rewrite Htrace. mred. by rewrite <- app_assoc.
Qed.

(** X15. Self-move-assignment of a FunctionBuffer that holds a callable by
    value runs the destructor of the held callable exactly once, with its
    effect on the bytes and on the memory outside, and leaves the buffer
    empty over the destroyed bytes: its boolean conversion is then false,
    invoking it raises the empty-invocation error, and its teardown runs
    no further destructor. *)
Theorem self_move_assign_empties
    (s : State) (this : Z) (b : FunctionBuffer) (G : Functor R Args E) :
  boxes s !! this = Some b ->
  occupied_by program this b (T_value G) ->
  functor_sized G ->
  let old := read_bytes PTR_SIZE (f_sizeof G) (m_buffer b) in
  let r := f_dtor G (member_address this) old (objs s) in
  exists s' buf1 buf,
    FunctionBuffer_move_assign program this this s = Some (tt, s') /\
    trace s' = trace s ++ [EvModelDtor (f_vtable G) this;
                           EvFunctorDtor (f_vtable G) old] /\
    objs s' = snd r /\
    write_bytes PTR_SIZE (fst r) (m_buffer b) = Some buf1 /\
    write_bytes 0 (encode_ptr FunctionConcept_vtable) buf1 = Some buf /\
    boxes s' = <[this := mkFunctionBuffer buf None]> (boxes s) /\
    FunctionBuffer_bool this s' = Some (false, s') /\
    (forall args : Args,
       FunctionBuffer_call program this args s'
       = Some (Raised (runtime_error "The function buffer is empty!"), s')) /\
    exists s'',
      FunctionBuffer_dtor program this s' = Some (tt, s'') /\
      trace s'' = trace s'.
Proof.
  intros Hb Hocc HszG old r.
  pose proof (occupied_value_size program this b G Hocc) as Hl.
  destruct Hocc as (Hq & Hlen & Hd & Hfit).
  destruct (destroy_held_value program s this b G Hb Hq Hd Hl HszG)
    as (buf1 & buf & Hw1 & Hw2 & Hdestroy).
  fold old in Hw1, Hdestroy. fold r in Hw1, Hdestroy.
  eexists _, buf1, buf. split.
  { unfold FunctionBuffer_move_assign.
    rewrite (bind_Some _ _ _ _ _ Hdestroy).
    munfold. repeat (progress (mred; rewrite ?lookup_insert_eq)).
    rewrite !insert_insert_eq. reflexivity. }
  mred. split; [reflexivity|]. split; [reflexivity|].
  split; [exact Hw1|]. split; [exact Hw2|]. split; [reflexivity|]. split.
  { munfold. mred. by rewrite lookup_insert_eq. }
  split.
  { intros args. eapply call_empty; mred; [apply lookup_insert_eq | reflexivity]. }
  eexists. split.
  { eapply dtor_empty; mred; [apply lookup_insert_eq | reflexivity]. }
  reflexivity.
Qed.


End Properties.

(* ===================================================================== *)
(** ** Further properties of the operations *)

Section Further.

Context {R Args E : Type}.
Variable program : list (Functor R Args E).

(* ------------------------------------------------------------------- *)
(** *** Templated assignment *)

(** X3. After a callable whose adapter fits is assigned into a
    FunctionBuffer that is empty or holds a trivially copyable callable,
    the buffer converts to true and invoking it returns what invoking the
    callable directly returns. *)
Theorem assign_then_call_agrees
    (T : TArg R Args E) (s : State) (this func : Z) (d : FunctionBuffer)
    (bs : list Z) (args : Args) :
  registered program T ->
  functor_sized (functor_of T) ->
  move_keeps_answer T (member_address this) func bs args (objs s) ->
  (sizeof_FunctionModel T <= MAX_BUFFER_SIZE)%nat ->
  boxes s !! this = Some d ->
  length (m_buffer d) = MAX_BUFFER_SIZE ->
  (m_func d = None \/
   exists G aG bsG, m_func d = Some (buffer_address this) /\
                    wrapped program s this = Some (G, aG, bsG) /\
                    functor_sized G /\ trivially_copyable G) ->
  0 <= func < 2 ^ 64 ->
  objs s !! func = Some bs ->
  length bs = f_sizeof (functor_of T) ->
  exists out s1 s2 s3,
    run (FunctionBuffer_assign program T) this func s = Some (tt, s1) /\
    FunctionBuffer_bool this s1 = Some (true, s1) /\
    FunctionBuffer_call program this args s1 = Some (out, s2) /\
    direct_call (functor_of T) func args s = Some (out, s3).
Proof.
  intros Hreg Hsz Hmove Hfit Hd Hlen Hdest Hfunc Ho Hbs.
  destruct (destroy_trivial program s this d Hd Hlen Hdest) as (evs & d' & Hdes & Hlen' & _).
  destruct (place_ok program T
              (mkState (<[this := d']> (boxes s)) (objs s) (trace s ++ evs))
              this func d' bs Hreg Hsz Hfit (lookup_insert_eq _ _ _) Hlen' Hfunc Ho Hbs)
    as (s1 & b1 & Hrun & Hboxes & (Hh1 & _) & _ & Hpost).
  cbn [boxes objs trace] in Hboxes, Hpost.
  assert (Hb1 : boxes s1 !! this = Some b1) by (rewrite Hboxes; apply lookup_insert_eq).
  assert (Hassign : run (FunctionBuffer_assign program T) this func s = Some (tt, s1)).
  { unfold run, FunctionBuffer_assign. by rewrite (bind_Some _ _ _ _ _ Hdes). }
  assert (Hbool : FunctionBuffer_bool this s1 = Some (true, s1)).
  { rewrite (bool_at s1 this b1 Hb1). by rewrite Hh1. }
  assert (Hdirect : direct_call (functor_of T) func args s =
                    Some (fst (fst (f_call (functor_of T) func bs args (objs s))),
                          mkState (boxes s)
                            (<[func := snd (fst (f_call (functor_of T) func bs args (objs s)))]>
                               (snd (f_call (functor_of T) func bs args (objs s))))
                            (trace s))).
  { munfold. by rewrite Ho. }
  destruct T as [F|F]; cbn [functor_of] in *; cbv zeta in Hpost;
    destruct Hpost as [Hw Hobjs].
  - destruct (call_wrapped program s1 this _ b1 F _ args Hb1 Hh1 Hw Hsz) as (s2 & Hcall & _).
    cbn [move_keeps_answer] in Hmove. cbv zeta in Hmove.
    rewrite Hobjs, Hmove in Hcall.
    eauto 10.
  - destruct (call_wrapped program s1 this _ b1 F _ args Hb1 Hh1 Hw Hsz) as (s2 & Hcall & _).
    rewrite Hobjs in Hcall. eauto 10.
Qed.

(* ------------------------------------------------------------------- *)
(** *** Teardown *)

(** X4. The destructor of a FunctionBuffer that holds a callable by value
    runs the adapter's destructor and the callable's destructor once, on
    the bytes held, and the object is gone; the destructor of an empty
    FunctionBuffer runs nothing.  No other FunctionBuffer is touched. *)
Theorem dtor_destroys_held_once
    (s : State) (this : Z) (b : FunctionBuffer) :
  boxes s !! this = Some b ->
  (forall G : Functor R Args E,
     occupied_by program this b (T_value G) ->
     functor_sized G ->
     let old := read_bytes PTR_SIZE (f_sizeof G) (m_buffer b) in
     exists s',
       FunctionBuffer_dtor program this s = Some (tt, s') /\
       trace s' = trace s ++ [EvModelDtor (f_vtable G) this;
                              EvFunctorDtor (f_vtable G) old] /\
       boxes s' = delete this (boxes s) /\
       objs s' = snd (f_dtor G (member_address this) old (objs s)))
  /\
  (m_func b = None ->
   exists s',
     FunctionBuffer_dtor program this s = Some (tt, s') /\
     trace s' = trace s /\
     boxes s' = delete this (boxes s) /\
     objs s' = objs s).
Proof.
  intros Hb. split.
  - intros G Hocc Hsz old. eexists.
    split; [exact (dtor_value program s this b G Hb Hocc Hsz)|].
    repeat split.
  - intros Hq. eexists. split; [exact (dtor_empty program s this b Hb Hq)|]. repeat split.
Qed.

(* ------------------------------------------------------------------- *)
(** *** Moves *)


(** X6. A callable that was moved from one FunctionBuffer into a new one
    is destroyed once over the lifetime of both: the teardown of the
    moved-from object runs no destructor, the teardown of the new object
    runs the adapter's and the callable's destructor on the bytes that
    were moved. *)
Theorem move_then_teardown_destroys_once
    (s : State) (this other : Z) (b : FunctionBuffer) (G : Functor R Args E) :
  boxes s !! other = Some b ->
  occupied_by program other b (T_value G) ->
  functor_sized G ->
  boxes s !! this = None ->
  let old := read_bytes PTR_SIZE (f_sizeof G) (m_buffer b) in
  exists s1 s2 s3,
    FunctionBuffer_move_ctor this other s = Some (tt, s1) /\
    FunctionBuffer_dtor program other s1 = Some (tt, s2) /\
    trace s2 = trace s /\
    FunctionBuffer_dtor program this s2 = Some (tt, s3) /\
    trace s3 = trace s ++ [EvModelDtor (f_vtable G) this;
                           EvFunctorDtor (f_vtable G) old].
Proof.
  intros Hb Hocc Hsz Hfresh old.
  assert (Hne : this <> other) by congruence.
  destruct Hocc as (Hq & Hlen & Hd & Hfit).
  eexists _, _, _.
  split; [exact (move_ctor_run s this other b Hb Hfresh)|].
  split.
  { eapply dtor_empty; mred; [apply lookup_insert_eq | reflexivity]. }
  mred. split; [reflexivity|].
  split.
  { eapply (dtor_value program _ this (mkFunctionBuffer (m_buffer b) (Some this)) G); mred.
    - rewrite delete_insert_eq, lookup_delete_ne by done. apply lookup_insert_eq.
    - split; [reflexivity|]. split; [exact Hlen|]. split; assumption.
    - exact Hsz. }
  reflexivity.
Qed.

(* ------------------------------------------------------------------- *)
(** *** Copies are copies of bytes *)

(** X7. Copy assignment (the operator taking a [const FunctionBuffer&])
    runs no constructor of the callable; it duplicates the bytes.  So
    after a copy of a FunctionBuffer that holds a callable by value into
    an empty one, the teardown of the copy and of the original each run
    the callable's destructor, on the same bytes: a callable constructed
    once is destroyed twice. *)
Theorem copy_then_teardown_destroys_twice
    (s : State) (this other : Z) (b d : FunctionBuffer) (G : Functor R Args E) :
  this <> other ->
  boxes s !! other = Some b ->
  occupied_by program other b (T_value G) ->
  functor_sized G ->
  boxes s !! this = Some d ->
  m_func d = None ->
  let old := read_bytes PTR_SIZE (f_sizeof G) (m_buffer b) in
  exists s1 s2 s3,
    FunctionBuffer_copy_assign program this other s = Some (tt, s1) /\
    trace s1 = trace s /\
    FunctionBuffer_dtor program this s1 = Some (tt, s2) /\
    FunctionBuffer_dtor program other s2 = Some (tt, s3) /\
    trace s3 = trace s ++ [EvModelDtor (f_vtable G) this;
                           EvFunctorDtor (f_vtable G) old;
                           EvModelDtor (f_vtable G) other;
                           EvFunctorDtor (f_vtable G) old].
Proof.
  intros Hne Hb Hocc Hsz Hd Hnull old.
  destruct Hocc as (Hq & Hlen & Hdyn & Hfit).
  eexists _, _, _.
  split.
  { unfold FunctionBuffer_copy_assign.
    rewrite (bind_Some _ _ _ _ _ (destroy_held_empty program s this d Hd Hnull)).
    munfold. mred. rewrite Hb. mred. rewrite Hd. mred.
    rewrite lookup_insert_eq. mred. rewrite insert_insert_eq. reflexivity. }
  mred. split; [reflexivity|].
  split.
  { eapply (dtor_value program _ this (mkFunctionBuffer (m_buffer b) (Some this)) G); mred.
    - apply lookup_insert_eq.
    - split; [reflexivity|]. split; [exact Hlen|]. split; assumption.
    - exact Hsz. }
  split.
  { eapply (dtor_value program _ other b G); mred.
    - rewrite delete_insert_eq, lookup_delete_ne by done. exact Hb.
    - split; [exact Hq|]. split; [exact Hlen|]. split; assumption.
    - exact Hsz. }
  mred. fold old. by rewrite <- app_assoc.
Qed.

(* ------------------------------------------------------------------- *)
(** *** Where the state of the callable lives *)

(** X10. A FunctionBuffer constructed from an rvalue owns its callable:
    whatever becomes of the memory outside the buffers afterwards (the
    caller invoking, changing or destroying its own object), the buffer
    still wraps the value that was moved into it. *)
Theorem rvalue_construction_owns_value
    (F : Functor R Args E) (s : State) (this func : Z) (bs : list Z) :
  registered program (T_value F) ->
  functor_sized F ->
  (sizeof_FunctionModel (T_value F) <= MAX_BUFFER_SIZE)%nat ->
  boxes s !! this = None ->
  objs s !! func = Some bs ->
  length bs = f_sizeof F ->
  exists s1,
    run (FunctionBuffer_ctor (T_value F)) this func s = Some (tt, s1) /\
    forall (h : gmap Z (list Z)) (tr : list Event),
      wrapped program (mkState (boxes s1) h tr) this
      = Some (F, member_address this,
              fst (fst (f_move F (member_address this) func bs (objs s)))).
Proof.
  intros Hreg Hsz Hfit Hfresh Ho Hbs.
  unfold run, FunctionBuffer_ctor.
  destruct (Nat.leb_spec (sizeof_FunctionModel (T_value F)) MAX_BUFFER_SIZE); [|lia].
  rewrite (bind_Some _ _ _ _ _ (alloc_box_fresh s this Hfresh)).
  erewrite bind_Some; cycle 1.
  { eapply placement_new_value; mred; try eassumption.
    - apply lookup_insert_eq.
    - apply repeat_length. }
  erewrite set_m_func_at by (mred; apply lookup_insert_eq).
  eexists. split; [reflexivity|]. intros h tr. mred.
  eapply wrapped_placed_value; [mred; apply lookup_insert_eq | exact Hreg |].
  exact (sz_move_length F Hsz _ _ _ _ Hbs).
Qed.

(** X11. A FunctionBuffer constructed from an lvalue runs the caller's
    object: an invocation returns what the object returns in its current
    state, leaves the updated state in the caller's object and the
    buffer's own bytes as they were; and without the object the
    invocation is undefined. *)
Theorem lvalue_call_runs_callers_object
    (F : Functor R Args E) (s : State) (this func : Z) (args : Args) :
  registered program (T_lref F) ->
  boxes s !! this = None ->
  0 <= func < 2 ^ 64 ->
  exists s1,
    run (FunctionBuffer_ctor (T_lref F)) this func s = Some (tt, s1) /\
    (forall (h : gmap Z (list Z)) (tr : list Event) (bs : list Z),
       h !! func = Some bs ->
       let r := f_call F func bs args h in
       FunctionBuffer_call program this args (mkState (boxes s1) h tr)
       = Some (fst (fst r),
               mkState (boxes s1) (<[func := snd (fst r)]> (snd r)) tr)) /\
    (forall (h : gmap Z (list Z)) (tr : list Event),
       h !! func = None ->
       FunctionBuffer_call program this args (mkState (boxes s1) h tr) = None).
Proof.
  intros Hreg Hfresh Hfunc.
  unfold run, FunctionBuffer_ctor.
  change ((sizeof_FunctionModel (T_lref F) <=? MAX_BUFFER_SIZE)%nat) with true.
  cbv beta iota.
  rewrite (bind_Some _ _ _ _ _ (alloc_box_fresh s this Hfresh)).
  erewrite bind_Some; cycle 1.
  { eapply placement_new_lref; mred; [apply lookup_insert_eq | apply repeat_length]. }
  erewrite set_m_func_at by (mred; apply lookup_insert_eq).
  eexists. split; [reflexivity|].
  mred.
  set (buf := encode_ptr (f_vtable_ref F) ++ encode_ptr func ++
              drop (PTR_SIZE + PTR_SIZE) (repeat 0 MAX_BUFFER_SIZE)).
  assert (Hd : dynamic_type program buf = Some (T_lref F))
    by exact (dynamic_type_placed program (T_lref F) _ Hreg).
  assert (Ha : decode_le (read_bytes PTR_SIZE PTR_SIZE buf) = func).
  { unfold buf, read_bytes.
    rewrite (drop_app_length' _ _ PTR_SIZE (eq_sym (length_encode_ptr _))).
    rewrite (take_app_length' _ _ PTR_SIZE (eq_sym (length_encode_ptr _))).
    exact (decode_encode_ptr func Hfunc). }
  assert (Hcall : forall h tr,
            FunctionBuffer_call program this args
              (mkState (<[this := mkFunctionBuffer buf (Some this)]> (boxes s)) h tr)
            = FunctionConcept_call program this args
                (mkState (<[this := mkFunctionBuffer buf (Some this)]> (boxes s)) h tr)).
  { intros h tr.
    apply (call_nonempty program _ this this (mkFunctionBuffer buf (Some this)) args);
      mred; [apply lookup_insert_eq | reflexivity]. }
  split.
  - intros h tr bs Hh. rewrite !insert_insert_eq, Hcall.
    rewrite (FunctionConcept_call_lref program _ this
               (mkFunctionBuffer buf (Some this)) F bs args).
    + mred. by rewrite Ha.
    + mred. apply lookup_insert_eq.
    + exact Hd.
    + mred. rewrite Ha. exact Hh.
  - intros h tr Hh. rewrite !insert_insert_eq, Hcall.
    unfold FunctionConcept_call. munfold. mred. rewrite lookup_insert_eq. mred.
    rewrite Hd. mred. by rewrite Ha, Hh.
Qed.

End Further.

(* ===================================================================== *)
(** ** The properties at concrete inputs *)

Import Examples.

Lemma doubler_sized : functor_sized doubler.
Proof. constructor; intros; assumption. Qed.

Lemma adder_sized : functor_sized adder.
Proof. constructor; intros; assumption. Qed.

Lemma counter_sized : functor_sized counter.
Proof.
  constructor; intros; cbn; try assumption.
  rewrite length_encode_le. assumption.
Qed.

Lemma thrower_sized : functor_sized thrower.
Proof. constructor; intros; assumption. Qed.

Lemma pinned_sized : functor_sized pinned.
Proof.
  constructor.
  - intros a bs args h Hbs. exact Hbs.
  - intros dst src bs h Hbs. cbn [f_move pinned fst snd f_sizeof] in *.
    rewrite length_app, length_encode_ptr, length_drop, Hbs. reflexivity.
  - intros a bs h Hbs. exact Hbs.
Qed.


Lemma counter_trivially_copyable : trivially_copyable counter.
Proof. constructor; intros; reflexivity. Qed.



(** Capacity 40, a lambda capturing three ints that sum to 10: [box(5)]
    returns 15. *)
Example adder_scenario :
  result_of (run (FunctionBuffer_ctor (T_value adder)) 1000 300 ;;
             FunctionBuffer_call program 1000 5) s0
  = Some (Returned 15).
Proof. vm_compute. reflexivity. Qed.

Lemma construct_then_call_agrees_witness :
  (exists out s1 s2 s3,
     run (FunctionBuffer_ctor (T_value adder)) 1000 300 s0 = Some (tt, s1) /\
     FunctionBuffer_call program 1000 5 s1 = Some (out, s2) /\
     direct_call adder 300 5 s0 = Some (out, s3))
  /\
  (exists out s1 s2 s3,
     run (FunctionBuffer_ctor (T_value pinned)) 1000 600 s0 = Some (tt, s1) /\
     FunctionBuffer_call program 1000 7 s1 = Some (out, s2) /\
     direct_call pinned 600 7 s0 = Some (out, s3))
  /\
  (exists out s1 s2 s3,
     run (FunctionBuffer_ctor (T_lref counter)) 1000 200 s0 = Some (tt, s1) /\
     FunctionBuffer_call program 1000 0 s1 = Some (out, s2) /\
     direct_call counter 200 0 s0 = Some (out, s3)).
Proof.
  split; [|split].
  - apply (construct_then_call_agrees program (T_value adder) s0 1000 300
             (encode_le 4 1 ++ encode_le 4 2 ++ encode_le 4 7) 5).
    + split; [vm_compute; split; congruence | reflexivity].
    + exact adder_sized.
    + reflexivity.
    + vm_compute. lia.
    + reflexivity.
    + lia.
    + reflexivity.
    + reflexivity.
  - apply (construct_then_call_agrees program (T_value pinned) s0 1000 600
             (encode_ptr 600 ++ encode_le 4 42 ++ [0; 0; 0; 0]) 7).
    + split; [vm_compute; split; congruence | reflexivity].
    + exact pinned_sized.
    + reflexivity.
    + vm_compute. lia.
    + reflexivity.
    + lia.
    + reflexivity.
    + reflexivity.
  - apply (construct_then_call_agrees program (T_lref counter) s0 1000 200
             (encode_le 4 5) 0).
    + split; [vm_compute; split; congruence | reflexivity].
    + exact counter_sized.
    + exact I.
    + vm_compute. lia.
    + reflexivity.
    + lia.
    + reflexivity.
    + reflexivity.
Defined.

Lemma call_error_policy_witness :
  FunctionBuffer_call program 1000 7 s_moved
  = Some (Raised (runtime_error "The function buffer is empty!"), s_moved)
  /\
  exists s', FunctionBuffer_call program 1000 7 s_thrower
             = Some (Raised (user_exception tt), s').
Proof.
  split.
  - eapply (proj1 (call_error_policy program s_moved 1000 _ 7 eq_refl)).
    reflexivity.
  - eapply (proj2 (call_error_policy program s_thrower 1000 _ 7 eq_refl)
              1000 thrower 1008 [0]).
    + reflexivity.
    + reflexivity.
    + exact thrower_sized.
    + reflexivity.
Defined.

Lemma call_empty_leaves_state_witness :
  FunctionBuffer_call program 1000 7 s_moved
  = Some (Raised (runtime_error "The function buffer is empty!"), s_moved)
  /\
  forall (T : TArg Z Z unit) (func : Z) (args' : Z),
    (FunctionBuffer_call program 1000 7 ;;
     run (FunctionBuffer_assign program T) 1000 func ;;
     FunctionBuffer_call program 1000 args') s_moved
    = (run (FunctionBuffer_assign program T) 1000 func ;;
       FunctionBuffer_call program 1000 args') s_moved.
Proof.
  eapply (call_empty_leaves_state program s_moved 1000 _ 7).
  - reflexivity.
  - reflexivity.
Defined.



(** C3. Copying a FunctionBuffer, by copy construction or by copy
    assignment, is to give an independent duplicate.  The copy constructor
    [FunctionBuffer(const FunctionBuffer&)] initialises the array member
    with [m_buffer{other.m_buffer}], which asks for a [char] made from an
    array: a program that copy-constructs from a [const FunctionBuffer] is
    not built, and no state comes of it.  Copy assignment, its sibling,
    copies the bytes with [std::copy] and does give the duplicate: with the
    doubler at 1000 copied into the buffer at 3000, both return 14 for 7,
    and the copy still does after the original is torn down. *)
Theorem copy_construction_is_not_built :
  FunctionBuffer_copy_ctor
  = BuildFailure
      "m_buffer{other.m_buffer}: cannot initialize a char from a const char array" /\
  (forall (this other : Z) (s : State), run FunctionBuffer_copy_ctor this other s = None) /\
  exec program (OpCopyCtor 2000 1000) s_doubler = None /\
  result_of (FunctionBuffer_copy_assign program 3000 1000 ;;
             x <- FunctionBuffer_call program 1000 7 ;;
             y <- FunctionBuffer_call program 3000 7 ;;
             FunctionBuffer_dtor program 1000 ;;
             z <- FunctionBuffer_call program 3000 7 ;;
             ret (x, y, z)) s_two
  = Some (Returned 14, Returned 14, Returned 14).
Proof.
  split; [reflexivity|]. split; [reflexivity|]. split; [reflexivity|].
  vm_compute. reflexivity.
Qed.

(** C4. Storing a callable whose adapter exceeds the capacity is to be
    rejected when the program is built, by construction and by templated
    assignment alike.  The constructor carries the [static_assert] and is
    rejected; the templated assignment operator carries none: for a
    48-byte adapter it is built, and running it writes past the 40-byte
    array. *)
Theorem oversized_assignment_is_built :
  (MAX_BUFFER_SIZE < sizeof_FunctionModel (T_value big))%nat /\
  FunctionBuffer_ctor (T_value big)
  = BuildFailure "The object won't fit in this buffer!" /\
  (exists code, FunctionBuffer_assign program (T_value big) = Built code) /\
  run (FunctionBuffer_assign program (T_value big)) 1000 500 s_doubler = None.
Proof.
  split; [vm_compute; lia|]. split; [reflexivity|].
  split; [eexists; reflexivity|]. vm_compute. reflexivity.
Qed.

(** C5. The handle is to be non-null exactly when a live adapter occupies
    the buffer, also for a copy of, or a move from, an empty
    FunctionBuffer.  Here [b1] at 1000 is moved-from, so its conversion to
    bool is false; yet move construction, copy assignment and move
    assignment from it each yield a destination whose conversion to bool
    is true, and tearing down the one that was move-constructed runs the
    destructor of the one callable ever constructed a second time. *)
Theorem copy_of_empty_has_handle :
  result_of (FunctionBuffer_bool 1000) s_moved = Some false /\
  result_of (FunctionBuffer_move_ctor 3000 1000 ;; FunctionBuffer_bool 3000) s_moved
  = Some true /\
  result_of (FunctionBuffer_copy_assign program 2000 1000 ;; FunctionBuffer_bool 2000) s_moved
  = Some true /\
  result_of (FunctionBuffer_move_assign program 2000 1000 ;; FunctionBuffer_bool 2000) s_moved
  = Some true /\
  trace_of (FunctionBuffer_move_ctor 3000 1000 ;;
            FunctionBuffer_dtor program 2000 ;;
            FunctionBuffer_dtor program 3000) s_moved
  = Some [EvFunctorMove 4160; EvModelCtor 4160 1000;
          EvModelDtor 4160 2000; EvFunctorDtor 4160 [5; 0; 0; 0];
          EvModelDtor 4160 3000; EvFunctorDtor 4160 [5; 0; 0; 0]].
Proof. repeat split; vm_compute; reflexivity. Qed.

(** C7. Assigning into a non-empty FunctionBuffer is to run the destructor
    of the callable it held, once, before the new adapter is constructed.
    A buffer constructed from an rvalue does: the trace shows the
    destructor of the counter's adapter and of the counter, then the
    construction of the doubler's adapter.  A buffer constructed from an
    lvalue holds a reference: the assignment destroys the adapter and no
    callable, and the caller's counter is as it was. *)
Theorem assign_over_lvalue_built_destroys_no_callable :
  trace_of (run (FunctionBuffer_assign program (T_value doubler)) 1000 100) s_b1
  = Some [EvFunctorMove 4160; EvModelCtor 4160 1000;
          EvModelDtor 4160 1000; EvFunctorDtor 4160 [5; 0; 0; 0];
          EvFunctorMove 4096; EvModelCtor 4096 1000] /\
  result_of (FunctionBuffer_bool 1000) s_ref = Some true /\
  trace_of (run (FunctionBuffer_assign program (T_value doubler)) 1000 100) s_ref
  = Some [EvModelCtor 4176 1000;
          EvModelDtor 4176 1000;
          EvFunctorMove 4096; EvModelCtor 4096 1000] /\
  result_of (run (FunctionBuffer_assign program (T_value doubler)) 1000 100 ;;
             direct_call counter 200 0) s_ref
  = Some (Returned 5).
Proof. repeat split; vm_compute; reflexivity. Qed.

(** C8. The adapter is to hold its own value of the callable, so that the
    buffer does not depend on the caller's object after construction.
    From an rvalue it does.  From an lvalue, [T] is deduced as [F&] and
    [FunctionModel<F&>] has a reference member: no constructor of the
    callable runs, a call made by the caller on its own object changes
    what the buffer returns next, and once the caller's object is gone the
    call through the buffer is undefined. *)
Theorem lvalue_construction_wraps_reference :
  trace_of (run (FunctionBuffer_ctor (T_lref counter)) 1000 200) s0
  = Some [EvModelCtor 4176 1000] /\
  result_of (run (FunctionBuffer_ctor (T_lref counter)) 1000 200 ;;
             FunctionBuffer_call program 1000 0) s0
  = Some (Returned 5) /\
  result_of (run (FunctionBuffer_ctor (T_lref counter)) 1000 200 ;;
             direct_call counter 200 0 ;;
             FunctionBuffer_call program 1000 0) s0
  = Some (Returned 6) /\
  result_of (run (FunctionBuffer_ctor (T_lref counter)) 1000 200 ;;
             h <- get_objs ;; put_objs (delete 200 h) ;;
             FunctionBuffer_call program 1000 0) s0
  = None /\
  result_of (run (FunctionBuffer_ctor (T_value counter)) 1000 200 ;;
             direct_call counter 200 0 ;;
             FunctionBuffer_call program 1000 0) s0
  = Some (Returned 5).
Proof. repeat split; vm_compute; reflexivity. Qed.

(** C9. Self-move-assignment of a non-empty FunctionBuffer is to run the
    destructor of the held callable once and leave the buffer empty.  A
    buffer constructed from an rvalue does both.  A buffer constructed
    from an lvalue holds a reference: it is non-empty, self-move-assignment
    leaves it empty (its conversion to bool is false, invoking it raises
    the empty-invocation error, its teardown adds nothing), but the only
    destructor that ran is the adapter's; no callable was destroyed. *)
Theorem self_move_assign_of_lvalue_built_destroys_no_callable :
  trace_of (FunctionBuffer_move_assign program 1000 1000) s_b1
  = Some [EvFunctorMove 4160; EvModelCtor 4160 1000;
          EvModelDtor 4160 1000; EvFunctorDtor 4160 [5; 0; 0; 0]] /\
  result_of (FunctionBuffer_bool 1000) s_ref = Some true /\
  trace_of (FunctionBuffer_move_assign program 1000 1000) s_ref
  = Some [EvModelCtor 4176 1000; EvModelDtor 4176 1000] /\
  result_of (FunctionBuffer_move_assign program 1000 1000 ;;
             FunctionBuffer_bool 1000) s_ref
  = Some false /\
  result_of (FunctionBuffer_move_assign program 1000 1000 ;;
             FunctionBuffer_call program 1000 0) s_ref
  = Some (Raised (runtime_error "The function buffer is empty!")) /\
  trace_of (FunctionBuffer_move_assign program 1000 1000 ;;
            FunctionBuffer_dtor program 1000) s_ref
  = Some [EvModelCtor 4176 1000; EvModelDtor 4176 1000].
Proof. repeat split; vm_compute; reflexivity. Qed.

(* ===================================================================== *)
(** ** The further properties at concrete inputs *)

Lemma counter_at_1000 :
  occupied_by program 1000
    (mkFunctionBuffer (encode_ptr 4160 ++ encode_le 4 5 ++ repeat 0 28) (Some 1000))
    (T_value counter).
Proof.
  split; [reflexivity|]. split; [reflexivity|]. split; [reflexivity|]. vm_compute. lia.
Qed.

Lemma doubler_registered : registered program (T_value doubler).
Proof. split; [vm_compute; split; congruence | reflexivity]. Qed.

Lemma doubler_fits : (sizeof_FunctionModel (T_value doubler) <= MAX_BUFFER_SIZE)%nat.
Proof. vm_compute. lia. Qed.

Lemma reachable_handles_own_witness :
  handles_own (state_after (exec_all program script) s0).
Proof.
  apply (reachable_handles_own program script s0).
  - reflexivity.
  - vm_compute. reflexivity.
Defined.

Lemma assign_then_call_agrees_witness :
  exists out s1 s2 s3,
    run (FunctionBuffer_assign program (T_value doubler)) 1000 100 s_b1 = Some (tt, s1) /\
    FunctionBuffer_bool 1000 s1 = Some (true, s1) /\
    FunctionBuffer_call program 1000 7 s1 = Some (out, s2) /\
    direct_call doubler 100 7 s_b1 = Some (out, s3).
Proof.
  eapply (assign_then_call_agrees program (T_value doubler) s_b1 1000 100 _ [0] 7).
  - exact doubler_registered.
  - exact doubler_sized.
  - reflexivity.
  - exact doubler_fits.
  - reflexivity.
  - reflexivity.
  - right. exists counter, 1008, (encode_le 4 5).
    exact (conj eq_refl (conj eq_refl
             (conj counter_sized counter_trivially_copyable))).
  - lia.
  - reflexivity.
  - reflexivity.
Defined.

Lemma dtor_destroys_held_once_witness :
  (exists s',
     FunctionBuffer_dtor program 1000 s_b1 = Some (tt, s') /\
     trace s' = trace s_b1 ++ [EvModelDtor 4160 1000; EvFunctorDtor 4160 (encode_le 4 5)] /\
     boxes s' = delete 1000 (boxes s_b1))
  /\
  (exists s',
     FunctionBuffer_dtor program 1000 s_moved = Some (tt, s') /\
     trace s' = trace s_moved /\
     boxes s' = delete 1000 (boxes s_moved)).
Proof.
  split.
  - destruct (proj1 (dtor_destroys_held_once program s_b1 1000 _ eq_refl) counter
                counter_at_1000 counter_sized)
      as (s' & H1 & H2 & H3 & _).
    exists s'. split; [exact H1|]. split; [exact H2|exact H3].
  - destruct (proj2 (dtor_destroys_held_once program s_moved 1000 _ eq_refl) eq_refl)
      as (s' & H1 & H2 & H3 & _).
    exists s'. split; [exact H1|]. split; [exact H2|exact H3].
Defined.


Lemma move_then_teardown_destroys_once_witness :
  exists s1 s2 s3,
    FunctionBuffer_move_ctor 2000 1000 s_b1 = Some (tt, s1) /\
    FunctionBuffer_dtor program 1000 s1 = Some (tt, s2) /\
    trace s2 = trace s_b1 /\
    FunctionBuffer_dtor program 2000 s2 = Some (tt, s3) /\
    trace s3 = trace s_b1 ++ [EvModelDtor 4160 2000; EvFunctorDtor 4160 (encode_le 4 5)].
Proof.
  exact (move_then_teardown_destroys_once program s_b1 2000 1000 _ counter eq_refl
           counter_at_1000 counter_sized eq_refl).
Defined.

Lemma copy_then_teardown_destroys_twice_witness :
  exists s1 s2 s3,
    FunctionBuffer_copy_assign program 1000 2000 s_moved = Some (tt, s1) /\
    trace s1 = trace s_moved /\
    FunctionBuffer_dtor program 1000 s1 = Some (tt, s2) /\
    FunctionBuffer_dtor program 2000 s2 = Some (tt, s3) /\
    trace s3 = trace s_moved ++ [EvModelDtor 4160 1000; EvFunctorDtor 4160 (encode_le 4 5);
                                 EvModelDtor 4160 2000; EvFunctorDtor 4160 (encode_le 4 5)].
Proof.
  eapply (copy_then_teardown_destroys_twice program s_moved 1000 2000
            (mkFunctionBuffer (encode_ptr 4160 ++ encode_le 4 5 ++ repeat 0 28) (Some 2000))
            (mkFunctionBuffer (encode_ptr 4160 ++ encode_le 4 5 ++ repeat 0 28) None)
            counter).
  - lia.
  - reflexivity.
  - split; [reflexivity|]. split; [reflexivity|]. split; [reflexivity|]. vm_compute. lia.
  - exact counter_sized.
  - reflexivity.
  - reflexivity.
Defined.

Lemma rvalue_construction_owns_value_witness :
  exists s1,
    run (FunctionBuffer_ctor (T_value counter)) 1000 200 s0 = Some (tt, s1) /\
    forall (h : gmap Z (list Z)) (tr : list Event),
      wrapped program (mkState (boxes s1) h tr) 1000 = Some (counter, 1008, encode_le 4 5).
Proof.
  apply (rvalue_construction_owns_value program counter s0 1000 200 (encode_le 4 5)).
  - split; [vm_compute; split; congruence | reflexivity].
  - exact counter_sized.
  - vm_compute. lia.
  - reflexivity.
  - reflexivity.
  - reflexivity.
Defined.

Lemma lvalue_call_runs_callers_object_witness :
  exists s1,
    run (FunctionBuffer_ctor (T_lref counter)) 1000 200 s0 = Some (tt, s1) /\
    FunctionBuffer_call program 1000 0 (mkState (boxes s1) (<[200 := encode_le 4 9]> ∅) [])
    = Some (Returned 9, mkState (boxes s1) (<[200 := encode_le 4 10]> ∅) []) /\
    FunctionBuffer_call program 1000 0 (mkState (boxes s1) ∅ []) = None.
Proof.
  destruct (lvalue_call_runs_callers_object program counter s0 1000 200 0)
    as (s1 & H1 & H2 & H3).
  - split; [vm_compute; split; congruence | reflexivity].
  - reflexivity.
  - lia.
  - exists s1. split; [exact H1|]. split.
    + exact (H2 (<[200 := encode_le 4 9]> ∅) [] (encode_le 4 9) eq_refl).
    + exact (H3 ∅ [] eq_refl).
Defined.

Lemma assign_over_reference_adapter_witness :
  exists s',
    run (FunctionBuffer_assign program (T_value doubler)) 1000 100 s_ref = Some (tt, s') /\
    trace s' = trace s_ref ++ [EvModelDtor 4176 1000]
                           ++ [EvFunctorMove 4096; EvModelCtor 4096 1000].
Proof.
  eapply (assign_over_reference_adapter program (T_value doubler) s_ref 1000 100 _ [0] counter).
  - exact doubler_registered.
  - exact doubler_sized.
  - exact doubler_fits.
  - reflexivity.
  - lia.
  - reflexivity.
  - split; [reflexivity|]. split; [reflexivity|]. split; [reflexivity|]. vm_compute. lia.
  - reflexivity.
Defined.

Lemma assign_destroys_previous_first_witness :
  (exists s' b',
     run (FunctionBuffer_assign program (T_value doubler)) 1000 100 s_b1 = Some (tt, s') /\
     trace s' = trace s_b1
                ++ [EvModelDtor 4160 1000; EvFunctorDtor 4160 (encode_le 4 5)]
                ++ [EvFunctorMove 4096; EvModelCtor 4096 1000] /\
     boxes s' !! 1000 = Some b' /\
     occupied_by program 1000 b' (T_value doubler))
  /\
  (exists s' b',
     run (FunctionBuffer_assign program (T_value doubler)) 1000 100 s_moved = Some (tt, s') /\
     trace s' = trace s_moved ++ [EvFunctorMove 4096; EvModelCtor 4096 1000] /\
     boxes s' !! 1000 = Some b' /\
     occupied_by program 1000 b' (T_value doubler)).
Proof.
  split.
  - exact (proj1 (assign_destroys_previous_first program (T_value doubler) s_b1 1000 100
                    _ [0] doubler_registered doubler_sized doubler_fits
                    eq_refl eq_refl ltac:(lia) eq_refl)
             counter counter_at_1000 counter_sized eq_refl).
  - exact (proj2 (assign_destroys_previous_first program (T_value doubler) s_moved 1000 100
                    _ [0] doubler_registered doubler_sized doubler_fits
                    eq_refl eq_refl ltac:(lia) eq_refl)
             eq_refl eq_refl).
Defined.

Lemma self_move_assign_empties_witness :
  exists s',
    FunctionBuffer_move_assign program 1000 1000 s_b1 = Some (tt, s') /\
    trace s' = trace s_b1 ++ [EvModelDtor 4160 1000; EvFunctorDtor 4160 (encode_le 4 5)] /\
    objs s' = objs s_b1 /\
    boxes s' = <[1000 := mkFunctionBuffer
                           (encode_ptr 1024 ++ encode_le 4 5 ++ repeat 0 28) None]>
                 (boxes s_b1) /\
    FunctionBuffer_bool 1000 s' = Some (false, s') /\
    (forall args : Z,
       FunctionBuffer_call program 1000 args s'
       = Some (Raised (runtime_error "The function buffer is empty!"), s')) /\
    exists s'',
      FunctionBuffer_dtor program 1000 s' = Some (tt, s'') /\
      trace s'' = trace s'.
Proof.
  destruct (self_move_assign_empties program s_b1 1000 _ counter eq_refl
              counter_at_1000 counter_sized)
    as (s' & buf1 & buf & H1 & H2 & H3 & H4 & H5 & H6 & H7 & H8 & H9).
  exists s'. split; [exact H1|]. split; [exact H2|]. split; [exact H3|].
  split; [|split; [exact H7|split; [exact H8|exact H9]]].
  rewrite H6. f_equal. f_equal.
  vm_compute in H4. injection H4 as <-.
  vm_compute in H5. injection H5 as <-.
  reflexivity.
Defined.

